(** * RimeConfig, [cn_dicts/wubi.encoded.py]: the Wubi dictionary builder

    A shallow embedding of the encoding rules, of the loaders of the code
    table and of the weight table, and of the two ingestion paths (single
    item and batch), with the properties stated about them.

    Conventions of the embedding.
    - A Python [str] is the list of its code points ([list N]); a character is
      a string of length one, as in Python.  [str "abc"] writes an ASCII
      literal.
    - A [dict] with string keys is a [gmap], a [set] of strings a [gset].
    - A function that can raise returns an [option] or an outcome type; which
      exception [None] stands for is said at each definition.
    - A file that is read is the list of the lines its iteration yields (the
      program strips each of them); a file that is appended to is the list of
      the lines written, without their terminators, one per [write] call.
      A text that holds a line break would make two lines of the file: a
      statement about what is read back from a written line assumes that
      the line holds none ([has_line_break]).
    - [\d] and [int()] take the decimal digits of all scripts, as Python
      does (the digits of Unicode 14.0, which CPython 3.11 uses), and
      [int()] has CPython's default limit of 4300 digits.
    - [str.lower] is modelled on ASCII, where it is exact: code points
      outside ASCII are left unchanged.  A statement that depends on the
      length or on the value of a lower-cased code assumes that the codes
      are ASCII strings, as the code table of the program holds them. *)

From Stdlib Require Import ZArith NArith List Ascii String Permutation Lia.
From stdpp Require Import base option list gmap.

#[local] Open Scope N_scope.

(** ** Text primitives *)

Abbreviation pystr := (list N) (only parsing).

Module Text.

(** An ASCII literal as a Python string. *)
Definition str (s : string) : pystr :=
  map N_of_ascii (list_ascii_of_string s).

Definition TAB : N := 9.
Definition NEWLINE : N := 10.
Definition SPACE : N := 32.
Definition UNDERSCORE : N := 95.
Definition PLUS : N := 43.
Definition MINUS : N := 45.

(** The code points [str.strip()] and [str.split()] treat as white space. *)
Definition is_space (c : N) : bool :=
  ((9 <=? c) && (c <=? 13)) || ((28 <=? c) && (c <=? 32))
  || (c =? 133) || (c =? 160) || (c =? 5760)
  || ((8192 <=? c) && (c <=? 8202))
  || (c =? 8232) || (c =? 8233) || (c =? 8239) || (c =? 8287)
  || (c =? 12288).

Fixpoint lstrip (s : pystr) : pystr :=
  match s with
  | c :: s' => if is_space c then lstrip s' else s
  | [] => []
  end.

Definition rstrip (s : pystr) : pystr := rev (lstrip (rev s)).

(** [s.strip()] *)
Definition strip (s : pystr) : pystr := rstrip (lstrip s).

(** [s.split(sep)] for a one-character separator: always at least one field. *)
Fixpoint split_on (sep : N) (s : pystr) : list pystr :=
  match s with
  | [] => [[]]
  | c :: s' =>
      if c =? sep then [] :: split_on sep s'
      else match split_on sep s' with
           | f :: fs => (c :: f) :: fs
           | [] => [[c]]
           end
  end.

(** [s.split()]: the maximal runs of non-space characters. *)
Fixpoint split_ws_aux (cur : pystr) (s : pystr) : list pystr :=
  match s with
  | [] => match cur with [] => [] | _ => [rev cur] end
  | c :: s' =>
      if is_space c
      then match cur with
           | [] => split_ws_aux [] s'
           | _ => rev cur :: split_ws_aux [] s'
           end
      else split_ws_aux (c :: cur) s'
  end.

Definition split_ws (s : pystr) : list pystr := split_ws_aux [] s.

(** [sep.join(parts)] *)
Fixpoint join (sep : pystr) (parts : list pystr) : pystr :=
  match parts with
  | [] => []
  | [p] => p
  | p :: ps => p ++ sep ++ join sep ps
  end.

Definition lower_char (c : N) : N :=
  if (65 <=? c) && (c <=? 90) then c + 32 else c.

(** [s.lower()] *)
Definition lower (s : pystr) : pystr := map lower_char s.

(** The code points of the digit zero of every script with decimal digits;
    the nine digits that follow each of them are its digits 1 to 9. *)
Definition decimal_zeros : list N :=
  [48; 1632; 1776; 1984; 2406; 2534; 2662; 2790; 2918; 3046; 3174; 3302;
   3430; 3558; 3664; 3792; 3872; 4160; 4240; 6112; 6160; 6470; 6608; 6784;
   6800; 6992; 7088; 7232; 7248; 42528; 43216; 43264; 43472; 43504; 43600;
   44016; 65296; 66720; 68912; 69734; 69872; 69942; 70096; 70384; 70736;
   70864; 71248; 71360; 71472; 71904; 72016; 72784; 73040; 73120; 92768;
   92864; 93008; 120782; 120792; 120802; 120812; 120822; 123200; 123632;
   125264; 130032].

(** The value of a decimal digit. *)
Definition digit_value (c : N) : option N :=
  match List.find (fun z => (z <=? c) && (c <=? z + 9)) decimal_zeros with
  | Some z => Some (c - z)
  | None => None
  end.

(** The class [\d] of a pattern on [str]. *)
Definition is_digit (c : N) : bool :=
  match digit_value c with
  | Some _ => true
  | None => false
  end.

Definition is_lower_or_space (c : N) : bool :=
  ((97 <=? c) && (c <=? 122)) || (c =? SPACE).

(** [re.match(r'^[...]+$', s)] for a character class that excludes the line
    break: one or more characters of the class, then the end of the string,
    where [$] also matches just before a final line break. *)
Definition re_match_plus (cls : N -> bool) (s : pystr) : bool :=
  let body := match last s with
              | Some c => if c =? NEWLINE then removelast s else s
              | None => s
              end in
  match body with
  | [] => false
  | _ => forallb cls body
  end.

(** [re.match(r'^\d+$', s)] *)
Definition is_number (s : pystr) : bool := re_match_plus is_digit s.

(** [re.match(r'^[a-z ]+$', s)] *)
Definition is_code_text (s : pystr) : bool := re_match_plus is_lower_or_space s.

(** The digits of [int()]: decimal digits, single underscores allowed between
    two digits.  [prev] tells whether the previous character was a digit. *)
Fixpoint int_digits (acc : Z) (prev : bool) (s : pystr) : option Z :=
  match s with
  | [] => if prev then Some acc else None
  | c :: s' =>
      match digit_value c with
      | Some v => int_digits (10 * acc + Z.of_N v)%Z true s'
      | None =>
          if (c =? UNDERSCORE) && prev then int_digits acc false s'
          else None
      end
  end.

(** The white space [int()] skips around a number: that of [strip] but the
    separators U+001C to U+001F. *)
Definition int_space (c : N) : bool :=
  is_space c && negb ((28 <=? c) && (c <=? 31)).

Fixpoint int_lstrip (s : pystr) : pystr :=
  match s with
  | c :: s' => if int_space c then int_lstrip s' else s
  | [] => []
  end.

Definition int_strip (s : pystr) : pystr :=
  rev (int_lstrip (rev (int_lstrip s))).

(** [sys.int_max_str_digits], at its default. *)
Definition MAX_STR_DIGITS : nat := 4300.

(** The signed digits of [int()], with the limit on their number. *)
Definition int_body (r : pystr) : option Z :=
  if (MAX_STR_DIGITS <? length (List.filter is_digit r))%nat then None
  else int_digits 0 false r.

(** [int(s)]; [None] is [ValueError]. *)
Definition py_int (s : pystr) : option Z :=
  match int_strip s with
  | c :: r =>
      if c =? PLUS then int_body r
      else if c =? MINUS then Z.opp <$> int_body r
      else int_body (c :: r)
  | [] => None
  end.

(** The text is made of ASCII characters. *)
Definition is_ascii (s : pystr) : bool := forallb (fun c => c <? 128) s.


(** [re.findall(r'[U+4E00-U+9FFF]', text)], joined: the CJK unified
    ideographs of the text, in order. *)
Definition is_chinese (c : N) : bool := (0x4e00 <=? c) && (c <=? 0x9fff).

Definition extract_chinese_chars (text : pystr) : pystr :=
  List.filter is_chinese text.

(** [s[i]] as a string of length one; [None] is [IndexError]. *)
Definition item (s : pystr) (i : nat) : option pystr :=
  (fun c => [c]) <$> s !! i.

(** [[char for char in s]] *)
Definition chars (s : pystr) : list pystr := map (fun c => [c]) s.

End Text.

Import Text.

(** ** The code table and the encoding rules *)

Module Rules.

(** [d.get(k, dflt)] *)
Definition get (d : gmap pystr pystr) (k dflt : pystr) : pystr :=
  default dflt (d !! k).

Definition get_first_code (char : pystr) (char_codes : gmap pystr pystr) : pystr :=
  let code := get char_codes char [] in
  match code with
  | [] => str "x"
  | _ => take 1 code
  end.

Definition get_first_two_codes (char : pystr) (char_codes : gmap pystr pystr) : pystr :=
  let code := get char_codes char [] in
  if (2 <=? length code)%nat then lower (take 2 code)
  else if (length code =? 1)%nat then lower code ++ str "x"
  else str "xx".

(** Rule 1.  [None] is the [IndexError] of [phrase[0]] on the empty phrase. *)
Definition rule_standard_wubi (phrase : pystr) (char_codes : gmap pystr pystr)
  : option pystr :=
  let length := length phrase in
  if (length =? 1)%nat then
    Some (lower (get char_codes phrase (str "xxxx")))
  else if (length =? 2)%nat then
    c0 ← item phrase 0; c1 ← item phrase 1;
    let code1 := get_first_two_codes c0 char_codes in
    let code2 := get_first_two_codes c1 char_codes in
    Some (lower (take 4 (code1 ++ code2)))
  else if (length =? 3)%nat then
    c0 ← item phrase 0; c1 ← item phrase 1; c2 ← item phrase 2;
    let code1 := get_first_code c0 char_codes in
    let code2 := get_first_code c1 char_codes in
    let code3 := get_first_two_codes c2 char_codes in
    Some (lower (take 4 (code1 ++ code2 ++ code3)))
  else if (length =? 4)%nat then
    let codes := map (fun char => get_first_code char char_codes) (chars phrase) in
    Some (lower (take 4 (concat codes)))
  else
    c0 ← item phrase 0; c1 ← item phrase 1; c2 ← item phrase 2;
    c_last ← item phrase (length - 1);
    let code1 := get_first_code c0 char_codes in
    let code2 := get_first_code c1 char_codes in
    let code3 := get_first_code c2 char_codes in
    let code_last := get_first_code c_last char_codes in
    Some (lower (take 4 (code1 ++ code2 ++ code3 ++ code_last))).

(** Rule 2. *)
Definition rule_one_code_per_char (phrase : pystr) (char_codes : gmap pystr pystr)
  : option pystr :=
  let length := length phrase in
  if (length =? 1)%nat then
    Some (lower (get char_codes phrase (str "xxxx")))
  else if (length =? 2)%nat then
    c0 ← item phrase 0; c1 ← item phrase 1;
    let code1 := get_first_two_codes c0 char_codes in
    let code2 := get_first_two_codes c1 char_codes in
    Some (lower (take 4 (code1 ++ code2)))
  else if (length =? 3)%nat then
    c0 ← item phrase 0; c1 ← item phrase 1; c2 ← item phrase 2;
    let code1 := get_first_code c0 char_codes in
    let code2 := get_first_code c1 char_codes in
    let code3 := get_first_two_codes c2 char_codes in
    Some (lower (take 4 (code1 ++ code2 ++ code3)))
  else
    let codes := map (fun char => get_first_code char char_codes) (chars phrase) in
    Some (lower (take 4 (concat codes))).

(** Rule 3. *)
Definition rule_first_two_chars_two_codes_rest_one
    (phrase : pystr) (char_codes : gmap pystr pystr) : option pystr :=
  let length := length phrase in
  if (length =? 1)%nat then
    Some (lower (get char_codes phrase (str "xxxx")))
  else if (length =? 2)%nat then
    c0 ← item phrase 0; c1 ← item phrase 1;
    let code1 := get_first_two_codes c0 char_codes in
    let code2 := get_first_two_codes c1 char_codes in
    Some (lower (take 4 (code1 ++ code2)))
  else
    p0 ← (if (1 <=? length)%nat
          then c0 ← item phrase 0; Some [get_first_two_codes c0 char_codes]
          else Some []);
    p1 ← (if (2 <=? length)%nat
          then c1 ← item phrase 1; Some [get_first_two_codes c1 char_codes]
          else Some []);
    rest ← mapM (fun i => c ← item phrase i; Some (get_first_code c char_codes))
                (seq 2 (length - 2));
    let code_parts := p0 ++ p1 ++ rest in
    let full_code := concat code_parts in
    Some (lower (take 4 full_code)).

(** The [for char in phrase] loop of rule 4, with its [break]; the state is
    [codes] and [total_length]. *)
Fixpoint rule_all_two_codes_loop (cs : list pystr) (char_codes : gmap pystr pystr)
    (codes : list pystr) (total_length : nat) : list pystr :=
  match cs with
  | [] => codes
  | char :: cs' =>
      if (4 <=? total_length)%nat then codes
      else
        let two_codes := get_first_two_codes char char_codes in
        let remaining := (4 - total_length)%nat in
        if (length two_codes <=? remaining)%nat
        then rule_all_two_codes_loop cs' char_codes (codes ++ [two_codes])
               (total_length + length two_codes)
        else rule_all_two_codes_loop cs' char_codes
               (codes ++ [take remaining two_codes])
               (total_length + remaining)
  end.

(** Rule 4. *)
Definition rule_all_two_codes (phrase : pystr) (char_codes : gmap pystr pystr)
  : pystr :=
  let codes := rule_all_two_codes_loop (chars phrase) char_codes [] 0 in
  let result := concat codes in
  let result :=
    if (length result <? 4)%nat
    then result ++ replicate (4 - length result) 120
    else result in
  lower (take 4 result).

(** Rule 5: the code is typed by the user, the engine returns the empty string. *)
Definition rule_free_coding (phrase : pystr) (char_codes : gmap pystr pystr)
  : pystr := [].

Section WithPinyin.

(** [pypinyin.lazy_pinyin(chars, style=Style.FIRST_LETTER)], an external
    package: [None] when it cannot be imported or raises. *)
Variable lazy_pinyin : pystr -> option (list pystr).

Definition get_pinyin_initials (text : pystr) : pystr :=
  let chinese_chars := extract_chinese_chars text in
  match chinese_chars with
  | [] => []
  | _ => match lazy_pinyin chinese_chars with
         | Some pinyin_initials => lower (join [] pinyin_initials)
         | None => []
         end
  end.

(** Rule 6. *)
Definition rule_wubi_pinyin_initials (phrase : pystr)
    (char_codes : gmap pystr pystr) : option pystr :=
  wubi_code ← rule_standard_wubi phrase char_codes;
  let pinyin_initials := get_pinyin_initials phrase in
  match pinyin_initials with
  | [] => Some wubi_code
  | _ => Some (wubi_code ++ pinyin_initials)
  end.

Definition generate_wubi_code (phrase : pystr) (char_codes : gmap pystr pystr)
    (rule : Z) : option pystr :=
  code ← (if (rule =? 1)%Z then rule_standard_wubi phrase char_codes
          else if (rule =? 2)%Z then rule_one_code_per_char phrase char_codes
          else if (rule =? 3)%Z
               then rule_first_two_chars_two_codes_rest_one phrase char_codes
          else if (rule =? 4)%Z then Some (rule_all_two_codes phrase char_codes)
          else if (rule =? 5)%Z then Some (rule_free_coding phrase char_codes)
          else if (rule =? 6)%Z then rule_wubi_pinyin_initials phrase char_codes
          else rule_standard_wubi phrase char_codes);
  Some (lower code).

End WithPinyin.

(** [check_all_chars_exist] *)
Definition check_all_chars_exist (phrase : pystr) (char_codes : gmap pystr pystr)
  : bool :=
  let chinese_chars := extract_chinese_chars phrase in
  match chinese_chars with
  | [] => false
  | _ => forallb (fun char => bool_decide (is_Some (char_codes !! char)))
                 (chars chinese_chars)
  end.

End Rules.

Import Rules.

(** ** The weight table *)

Module Weights.

(** The phrase and the weight field of a line of the weight table, for a line
    that has the two fields. *)
Definition weight_fields (line : pystr) : option (pystr * pystr) :=
  let line := strip line in
  match line with
  | [] => None
  | _ =>
      let parts := split_on TAB line in
      if (2 <=? length parts)%nat then
        match parts with
        | phrase :: w :: _ => Some (phrase, strip w)
        | _ => None
        end
      else None
  end.

(** The body of the loop of [read_phrase_weights] once the line is split.
    [None] is an exception of [int(weight_str)], which leaves the loop. *)
Definition merge_weight (phrase_weights : gmap pystr pystr)
    (phrase weight_str : pystr) : option (gmap pystr pystr) :=
  weight_int ← (if negb (is_number weight_str) then Some 0%Z
                else py_int weight_str);
  match phrase_weights !! phrase with
  | Some existing =>
      match py_int existing with
      | Some existing_weight =>
          if (existing_weight <? weight_int)%Z
          then Some (<[phrase := weight_str]> phrase_weights)
          else Some phrase_weights
      | None => Some (<[phrase := weight_str]> phrase_weights)
      end
  | None => Some (<[phrase := weight_str]> phrase_weights)
  end.

Definition read_line (phrase_weights : gmap pystr pystr) (line : pystr)
  : option (gmap pystr pystr) :=
  match weight_fields line with
  | Some (phrase, weight_str) => merge_weight phrase_weights phrase weight_str
  | None => Some phrase_weights
  end.

(** [for line in f], inside the [try]: an exception returns the table read so
    far. *)
Fixpoint read_lines (phrase_weights : gmap pystr pystr) (lines : list pystr)
  : gmap pystr pystr :=
  match lines with
  | [] => phrase_weights
  | line :: rest =>
      match read_line phrase_weights line with
      | Some phrase_weights' => read_lines phrase_weights' rest
      | None => phrase_weights
      end
  end.

(** [read_phrase_weights]; the file is [None] when it does not exist. *)
Definition read_phrase_weights (file : option (list pystr)) : gmap pystr pystr :=
  match file with
  | None => ∅
  | Some lines => read_lines ∅ lines
  end.

(** The weight fields the table gives for one phrase, in file order. *)
Definition observed (phrase : pystr) (lines : list pystr) : list pystr :=
  omap (fun line =>
          match weight_fields line with
          | Some (p, w) => if decide (p = phrase) then Some w else None
          | None => None
          end) lines.

Definition DEFAULT_WEIGHT : pystr := str "100".

(** The weight written with an entry: the stored weight of the phrase when it
    is a numeral, else the default. *)
Definition resolve_weight (phrase_weights : gmap pystr pystr) (phrase : pystr)
  : pystr :=
  let weight := get phrase_weights phrase DEFAULT_WEIGHT in
  if negb (is_number weight) then DEFAULT_WEIGHT else weight.

End Weights.

Import Weights.

(** ** The ingestion paths *)

Module Pipeline.

(** *** The world outside the process

    Two append-only text files, the record files of the batch runs, the
    results the operating system gives to the successive write attempts (an
    exhausted script means success) and what the user types at the prompts
    (an exhausted script means end of input). *)

Inductive io_result := IoOk | IoError.

Inductive input_event :=
  | Typed (text : pystr)      (* [input()] returns *)
  | Interrupt                 (* [KeyboardInterrupt] *)
  | InputFails.               (* any other exception of [input()] *)

(** The header a batch run writes to its record file: rule, total lines,
    added, failed, skipped. *)
Definition record_header : Type := Z * nat * nat * nat * nat.

Record World := mkWorld {
  dict_file : list pystr;
  fail_file : list pystr;
  record_files : list record_header;
  writes : list io_result;
  stdin : list input_event
}.

Definition set_dict_file (f : list pystr) (w : World) : World :=
  mkWorld f (fail_file w) (record_files w) (writes w) (stdin w).
Definition set_fail_file (f : list pystr) (w : World) : World :=
  mkWorld (dict_file w) f (record_files w) (writes w) (stdin w).
Definition set_record_files (r : list record_header) (w : World) : World :=
  mkWorld (dict_file w) (fail_file w) r (writes w) (stdin w).
Definition set_writes (r : list io_result) (w : World) : World :=
  mkWorld (dict_file w) (fail_file w) (record_files w) r (stdin w).
Definition set_stdin (i : list input_event) (w : World) : World :=
  mkWorld (dict_file w) (fail_file w) (record_files w) (writes w) i.

(** The result of the next write attempt. *)
Definition try_write (w : World) : io_result * World :=
  match writes w with
  | [] => (IoOk, w)
  | r :: rest => (r, set_writes rest w)
  end.

(** The line [f"{phrase}\t{code}\t{weight}\n"] of the dictionary. *)
Definition entry_line (phrase code weight : pystr) : pystr :=
  phrase ++ [TAB] ++ code ++ [TAB] ++ weight.

(** The phrase [read_existing_entries] takes from a line of the dictionary. *)
Definition entry_phrase (line : pystr) : option pystr :=
  match strip line with
  | [] => None
  | line' => head (split_on TAB line')
  end.

Definition read_existing_entries (file : list pystr) : gset pystr :=
  list_to_set (omap entry_phrase file).

(** The phrases of the fail file, as [file_batch_mode] loads them. *)
Definition fail_phrase (line : pystr) : option pystr :=
  match strip line with
  | [] => None
  | line' => Some line'
  end.

Definition read_fail_phrases (file : list pystr) : gset pystr :=
  list_to_set (omap fail_phrase file).

(** [clean_output_file]: the blank lines go. *)
Definition clean_output_file (file : list pystr) : list pystr :=
  List.filter (fun line => match strip line with [] => false | _ => true end) file.

(** *** One phrase: [interactive_single_input] *)

Inductive reject_reason :=
  | UncodeableChars     (* [(False, "包含未编码汉字")] *)
  | NoCodeableChars     (* [(False, "不包含中文字符")] *)
  | UserCancelled       (* [(False, "用户取消")] *)
  | InputError          (* [(False, str(e))], from the prompt *)
  | WriteError.         (* [(False, str(e))], from the append *)

Inductive outcome :=
  | Added (code : pystr)          (* [(True, code)] *)
  | Skipped_AlreadyExists         (* [(False, "已存在")] *)
  | Rejected (r : reject_reason)
  | Raises.                       (* an exception leaves the function *)

(** The prompt loop of rule 5: asks again until a code is accepted, the user
    interrupts or [input()] fails. *)
Fixpoint prompt_code (events : list input_event)
  : (pystr + outcome) * list input_event :=
  match events with
  | [] => (inr (Rejected InputError), [])
  | Typed text :: rest =>
      let user_code := strip text in
      match user_code with
      | [] => prompt_code rest
      | _ =>
          let user_code := lower user_code in
          if negb (is_code_text user_code) then prompt_code rest
          else (inl (join [SPACE] (split_ws user_code)), rest)
      end
  | Interrupt :: rest => (inr (Rejected UserCancelled), rest)
  | InputFails :: rest => (inr (Rejected InputError), rest)
  end.

Section WithPinyin.

Variable lazy_pinyin : pystr -> option (list pystr).

(** The code of a phrase under a rule other than 5: from its Chinese
    characters only. *)
Definition encode_chinese (phrase : pystr) (rule : Z)
    (char_codes : gmap pystr pystr) : pystr + outcome :=
  let chinese_chars := extract_chinese_chars phrase in
  match chinese_chars with
  | [] => inr (Rejected NoCodeableChars)
  | _ => match generate_wubi_code lazy_pinyin chinese_chars char_codes rule with
         | Some code => inl code
         | None => inr Raises
         end
  end.

Definition interactive_single_input (phrase : pystr) (rule : Z)
    (char_codes phrase_weights : gmap pystr pystr)
    (existing_phrases : gset pystr) (w : World)
  : outcome * gset pystr * World :=
  if decide (phrase ∈ existing_phrases) then
    (Skipped_AlreadyExists, existing_phrases, w)
  else if negb ((rule =? 5)%Z || (rule =? 6)%Z)
          && negb (check_all_chars_exist phrase char_codes) then
    (Rejected UncodeableChars, existing_phrases, w)
  else
    let '(code, w) :=
      if (rule =? 5)%Z then
        let '(r, rest) := prompt_code (stdin w) in (r, set_stdin rest w)
      else if (rule =? 6)%Z then (encode_chinese phrase rule char_codes, w)
      else (encode_chinese phrase rule char_codes, w) in
    match code with
    | inr o => (o, existing_phrases, w)
    | inl code =>
        let weight := resolve_weight phrase_weights phrase in
        match try_write w with
        | (IoOk, w) =>
            (Added code, {[phrase]} ∪ existing_phrases,
             set_dict_file (dict_file w ++ [entry_line phrase code weight]) w)
        | (IoError, w) => (Rejected WriteError, existing_phrases, w)
        end
    end.

(** *** A file of phrases: [file_batch_mode] *)

Inductive fail_reason :=
  | FailNoChinese      (* ['不包含中文字符'] *)
  | FailUncoded        (* ['包含未编码的汉字'] *)
  | FailWriteError.    (* ['文件写入错误'] *)

Record batch_state := mkBatch {
  existing_phrases : gset pystr;
  existing_fail_phrases : gset pystr;
  total_lines : nat;
  added_count : nat;
  fail_count : nat;
  skipped_count : nat;
  success_records : list (pystr * pystr * pystr);
  fail_records : list (pystr * fail_reason)
}.

Definition count_line (st : batch_state) : batch_state :=
  mkBatch (existing_phrases st) (existing_fail_phrases st)
    (S (total_lines st)) (added_count st) (fail_count st) (skipped_count st)
    (success_records st) (fail_records st).

Definition count_skipped (st : batch_state) : batch_state :=
  mkBatch (existing_phrases st) (existing_fail_phrases st)
    (total_lines st) (added_count st) (fail_count st) (S (skipped_count st))
    (success_records st) (fail_records st).

Definition count_added (line code weight : pystr) (st : batch_state)
  : batch_state :=
  mkBatch ({[line]} ∪ existing_phrases st) (existing_fail_phrases st)
    (total_lines st) (S (added_count st)) (fail_count st) (skipped_count st)
    (success_records st ++ [(line, code, weight)]) (fail_records st).

Definition count_failed (line : pystr) (reason : fail_reason)
    (st : batch_state) : batch_state :=
  mkBatch (existing_phrases st) ({[line]} ∪ existing_fail_phrases st)
    (total_lines st) (added_count st) (S (fail_count st)) (skipped_count st)
    (success_records st) (fail_records st ++ [(line, reason)]).

(** The failure counted without a line in the fail file (the branch after
    the extraction of the Chinese characters). *)
Definition count_failed_unwritten (line : pystr) (reason : fail_reason)
    (st : batch_state) : batch_state :=
  mkBatch (existing_phrases st) (existing_fail_phrases st)
    (total_lines st) (added_count st) (S (fail_count st)) (skipped_count st)
    (success_records st) (fail_records st ++ [(line, reason)]).

(** [try: fail_file.write(line) ... except: print(...)]: the failure is
    counted and remembered only when the line reached the fail file. *)
Definition write_fail (line : pystr) (reason : fail_reason)
    (st : batch_state) (w : World) : batch_state * World :=
  match try_write w with
  | (IoOk, w) =>
      (count_failed line reason st, set_fail_file (fail_file w ++ [line]) w)
  | (IoError, w) => (st, w)
  end.

(** The body of the loop over the lines of the input file.  [None] is an
    exception that leaves the loop. *)
Definition batch_item (rule : Z) (char_codes phrase_weights : gmap pystr pystr)
    (raw_line : pystr) (st : batch_state) (w : World)
  : option batch_state * World :=
  let line := strip raw_line in
  let st := count_line st in
  let encode_and_append st w :=
    let chinese_chars := extract_chinese_chars line in
    match chinese_chars with
    | [] => (Some (count_failed_unwritten line FailNoChinese st), w)
    | _ =>
        match generate_wubi_code lazy_pinyin chinese_chars char_codes rule with
        | None => (None, w)
        | Some code =>
            let weight := resolve_weight phrase_weights line in
            match try_write w with
            | (IoOk, w) =>
                (Some (count_added line code weight st),
                 set_dict_file (dict_file w ++ [entry_line line code weight]) w)
            | (IoError, w) =>
                let '(st, w) := write_fail line FailWriteError st w in
                (Some st, w)
            end
        end
    end in
  match line with
  | [] => (Some st, w)
  | _ =>
      if decide (line ∈ existing_phrases st) then (Some (count_skipped st), w)
      else if decide (line ∈ existing_fail_phrases st)
      then (Some (count_skipped st), w)
      else if (rule =? 6)%Z then
        match extract_chinese_chars line with
        | [] => let '(st, w) := write_fail line FailNoChinese st w in
                (Some st, w)
        | _ => encode_and_append st w
        end
      else if negb (check_all_chars_exist line char_codes) then
        let '(st, w) := write_fail line FailUncoded st w in (Some st, w)
      else encode_and_append st w
  end.

Fixpoint batch_loop (rule : Z) (char_codes phrase_weights : gmap pystr pystr)
    (lines : list pystr) (st : batch_state) (w : World)
  : option batch_state * World :=
  match lines with
  | [] => (Some st, w)
  | raw_line :: rest =>
      match batch_item rule char_codes phrase_weights raw_line st w with
      | (Some st, w) => batch_loop rule char_codes phrase_weights rest st w
      | (None, w) => (None, w)
      end
  end.

(** The three [return] statements of [file_batch_mode] return the same tuple
    shape and differ by the message printed before them. *)
Inductive batch_exit :=
  | ExitRule5Unsupported   (* "自由编码规则不支持文件批量处理模式" *)
  | ExitProcessed          (* "文件处理完成" *)
  | ExitException.         (* "处理文件时出错" *)

(** [file_batch_mode]; the input file is [None] when it cannot be read.  The
    result is the exit taken, [added_count], [fail_count] and the world. *)
Definition file_batch_mode (rule : Z)
    (char_codes phrase_weights : gmap pystr pystr)
    (input_file : option (list pystr)) (w : World)
  : batch_exit * nat * nat * World :=
  if (rule =? 5)%Z then (ExitRule5Unsupported, 0%nat, 0%nat, w)
  else
    let st := mkBatch (read_existing_entries (dict_file w))
                (read_fail_phrases (fail_file w)) 0 0 0 0 [] [] in
    match input_file with
    | None => (ExitException, 0%nat, 0%nat, w)
    | Some lines =>
        match batch_loop rule char_codes phrase_weights lines st w with
        | (None, w) => (ExitException, 0%nat, 0%nat, w)
        | (Some st, w) =>
            let w := if (0 <? added_count st)%nat
                     then set_dict_file (clean_output_file (dict_file w)) w
                     else w in
            let w := if (0 <? fail_count st)%nat
                     then set_fail_file (clean_output_file (fail_file w)) w
                     else w in
            match try_write w with
            | (IoOk, w) =>
                (ExitProcessed, added_count st, fail_count st,
                 set_record_files
                   (record_files w ++
                    [(rule, total_lines st, added_count st, fail_count st,
                      skipped_count st)]) w)
            | (IoError, w) => (ExitException, 0%nat, 0%nat, w)
            end
        end
    end.

End WithPinyin.

End Pipeline.

Import Pipeline.

(** ** Reference definitions and sample data *)

Module Reference.

(** Rule 4 in the words of its description: the first two codes of every
    character in a row, cut at four code units, padded with [x] when the
    phrase gives fewer. *)
Definition all_two_capped (phrase : pystr) (char_codes : gmap pystr pystr)
  : pystr :=
  take 4 (concat (map (fun char => get_first_two_codes char char_codes)
                      (chars phrase))
          ++ replicate 4 120).

(** What a line with the weight field [w] makes of the stored weight [cur]
    of its phrase, in the words of the loader's comments: a field that is not
    a number counts as 0, the larger weight is kept, and a stored weight that
    is no integer gives way. *)
Definition merge_at (cur : option pystr) (w : pystr) : option pystr :=
  let weight_int := if is_number w then default 0%Z (py_int w) else 0%Z in
  match cur with
  | None => Some w
  | Some existing =>
      match py_int existing with
      | Some existing_weight =>
          if (existing_weight <? weight_int)%Z then Some w else Some existing
      | None => Some w
      end
  end.

(** A code table whose codes are ASCII, as those of a Wubi table are: on
    such codes [lower] is the [str.lower] of Python, which changes the
    length of some texts outside ASCII. *)
Definition ascii_codes (char_codes : gmap pystr pystr) : bool :=
  forallb (fun entry => is_ascii entry.2) (map_to_list char_codes).

(** A line of the weight table that [int()] accepts at line 206: its weight
    field, when it is a number, has no more digits than [int()] converts. *)
Definition within_int_limit (line : pystr) : bool :=
  match Weights.weight_fields line with
  | Some (_, w) =>
      negb (is_number w)
      || (length (List.filter is_digit w) <=? MAX_STR_DIGITS)%nat
  | None => true
  end.

End Reference.

Module Samples.

(** 打, 字, 一 and a small code table. *)
Definition da : N := 0x6253.
Definition zi : N := 0x5b57.
Definition yi : N := 0x4e00.

Definition table : gmap pystr pystr :=
  <[ [da] := str "abcd" ]> (<[ [zi] := str "efgh" ]> (<[ [yi] := str "g" ]> ∅)).

(** A table in which 一 has the one-letter code [a]. *)
Definition table_a : gmap pystr pystr := <[ [yi] := str "a" ]> ∅.

(** [pypinyin] is not installed. *)
Definition no_pinyin : pystr -> option (list pystr) := fun _ => None.

Definition empty_world : World := mkWorld [] [] [] [] [].

(** A world in which the next write fails and the one after succeeds. *)
Definition failing_world : World := mkWorld [] [] [] [IoError; IoOk] [].

Definition weight_line (phrase weight : pystr) : pystr :=
  phrase ++ [TAB] ++ weight ++ [NEWLINE].

End Samples.

(** ** The loader of the code table and the check of a typed code *)

Module CodeTable.

(** The character and the code of a line of the code table, for a line that
    has the two fields; the code is put in lower case. *)
Definition code_fields (line : pystr) : option (pystr * pystr) :=
  let line := strip line in
  match line with
  | [] => None
  | _ =>
      let parts := split_on TAB line in
      if (2 <=? length parts)%nat then
        match parts with
        | char :: code :: _ => Some (char, lower code)
        | _ => None
        end
      else None
  end.

(** [for line in f] of [read_single_char_codes]. *)
Fixpoint read_code_lines (char_codes : gmap pystr pystr) (lines : list pystr)
  : gmap pystr pystr :=
  match lines with
  | [] => char_codes
  | line :: rest =>
      match code_fields line with
      | Some (char, code) => read_code_lines (<[char := code]> char_codes) rest
      | None => read_code_lines char_codes rest
      end
  end.

(** [read_single_char_codes]; the file is [None] when it does not exist. *)
Definition read_single_char_codes (file : option (list pystr))
  : gmap pystr pystr :=
  match file with
  | None => ∅
  | Some lines => read_code_lines ∅ lines
  end.

(** [validate_wubi_code] *)
Definition validate_wubi_code (code : pystr) : bool :=
  match code with
  | [] => false
  | _ => if negb (is_code_text code) then false else true
  end.

End CodeTable.
(** ** What a batch run leaves behind *)

Module BatchView.

Definition record_phrase (r : pystr * pystr * pystr) : pystr := r.1.1.

(** The dictionary line of a success record. *)
Definition record_line (r : pystr * pystr * pystr) : pystr :=
  entry_line r.1.1 r.1.2 r.2.

(** The state [st'] and the world [w'] are the state [st] and the world [w]
    after the lines [lines] of input, of which [added] were added to the
    dictionary and [failed] were written to the fail file. *)
Definition batch_effect (st : batch_state) (w : World)
    (st' : batch_state) (w' : World) (lines : list pystr)
    (added : list (pystr * pystr * pystr))
    (failed : list (pystr * fail_reason)) : Prop :=
  success_records st' = success_records st ++ added
  /\ fail_records st' = fail_records st ++ failed
  /\ dict_file w' = dict_file w ++ map record_line added
  /\ fail_file w' = fail_file w ++ map fst failed
  /\ record_files w' = record_files w
  /\ added_count st' = (added_count st + length added)%nat
  /\ fail_count st' = (fail_count st + length failed)%nat
  /\ total_lines st' = (total_lines st + length lines)%nat
  /\ (skipped_count st <= skipped_count st')%nat
  /\ (length added + length failed + (skipped_count st' - skipped_count st)
      <= length lines)%nat
  /\ existing_phrases st'
     = list_to_set (map record_phrase added) ∪ existing_phrases st
  /\ existing_fail_phrases st'
     = list_to_set (map fst failed) ∪ existing_fail_phrases st
  /\ NoDup (map record_phrase added ++ map fst failed)
  /\ (forall p, p ∈ map record_phrase added ++ map fst failed ->
        p <> [] /\ strip p = p
        /\ (p ∉ existing_phrases st) /\ (p ∉ existing_fail_phrases st)
        /\ exists raw, In raw lines /\ p = strip raw)
  /\ Forall (fun r : pystr * pystr * pystr => is_number r.2 = true) added.

End BatchView.

#[local] Close Scope N_scope.

(** ** Facts about the text primitives *)

Module TextFacts.

Lemma lower_char_idemp c : lower_char (lower_char c) = lower_char c.
Proof.
  unfold lower_char.
  destruct ((65 <=? c)%N && (c <=? 90)%N) eqn:E.
  - apply andb_true_iff in E as [E1 E2].
    apply N.leb_le in E1, E2.
    assert (((65 <=? c + 32)%N && (c + 32 <=? 90)%N) = false) as ->;
      [|reflexivity].
    apply andb_false_iff. right. apply N.leb_gt. lia.
  - rewrite E. reflexivity.
Qed.

Lemma lower_idemp s : lower (lower s) = lower s.
Proof.
  unfold lower. rewrite List.map_map.
  apply List.map_ext. intros c. apply lower_char_idemp.
Qed.

Lemma lower_length s : length (lower s) = length s.
Proof. apply List.length_map. Qed.

Lemma lower_app s t : lower (s ++ t) = lower s ++ lower t.
Proof. apply List.map_app. Qed.

Lemma lower_take n s : lower (take n s) = take n (lower s).
Proof. unfold lower. symmetry. apply List.firstn_map. Qed.

Lemma lower_repeat_x n : lower (replicate n 120%N) = replicate n 120%N.
Proof. induction n as [|n IH]; simpl; [reflexivity|]. f_equal. exact IH. Qed.

End TextFacts.

Import TextFacts.

Module RulesFacts.

Lemma first_two_length char cc : length (get_first_two_codes char cc) = 2.
Proof.
  unfold get_first_two_codes.
  destruct (Nat.leb_spec 2 (length (get cc char []))) as [H|H].
  - rewrite lower_length, length_take. lia.
  - destruct (Nat.eqb_spec (length (get cc char [])) 1) as [H1|H1].
    + rewrite length_app, lower_length, H1. reflexivity.
    + reflexivity.
Qed.

Lemma first_two_lower char cc :
  lower (get_first_two_codes char cc) = get_first_two_codes char cc.
Proof.
  unfold get_first_two_codes.
  destruct (2 <=? _); [apply lower_idemp|].
  destruct (_ =? 1); [|reflexivity].
  rewrite lower_app, lower_idemp. reflexivity.
Qed.

Lemma first_twos_lower cs cc :
  lower (concat (map (fun char => get_first_two_codes char cc) cs))
  = concat (map (fun char => get_first_two_codes char cc) cs).
Proof.
  induction cs as [|c cs IH]; simpl; [reflexivity|].
  rewrite lower_app, first_two_lower, IH. reflexivity.
Qed.

(** The loop of rule 4 keeps the first four code units of what the
    characters give. *)
Lemma rule_all_two_codes_loop_spec cs cc : forall codes total,
  total = length (concat codes) -> total <= 4 ->
  concat (rule_all_two_codes_loop cs cc codes total)
  = take 4 (concat codes
            ++ concat (map (fun char => get_first_two_codes char cc) cs)).
Proof.
  induction cs as [|c cs IH]; intros codes total Ht Hle;
    cbn [rule_all_two_codes_loop List.map concat].
  - rewrite app_nil_r, take_ge by lia. reflexivity.
  - destruct (Nat.leb_spec 4 total) as [H4|H4].
    + rewrite take_app_le by lia. rewrite take_ge by lia. reflexivity.
    + set (two := get_first_two_codes c cc).
      destruct (Nat.leb_spec (length two) (4 - total)) as [Hfit|Hcut].
      * rewrite IH.
        -- rewrite concat_app. simpl. rewrite app_nil_r, <- app_assoc.
           reflexivity.
        -- rewrite concat_app, length_app. simpl. rewrite app_nil_r. lia.
        -- lia.
      * rewrite IH.
        -- rewrite concat_app. simpl. rewrite app_nil_r.
           rewrite take_app_le.
           2:{ rewrite length_app, length_take. lia. }
           rewrite take_ge.
           2:{ rewrite length_app, length_take. lia. }
           rewrite (take_app_ge (concat codes)) by lia.
           f_equal. rewrite <- Ht. rewrite take_app_le by lia. reflexivity.
        -- rewrite concat_app, length_app. simpl.
           rewrite app_nil_r, length_take. lia.
        -- lia.
Qed.

Lemma rule_all_two_codes_capped phrase cc :
  rule_all_two_codes phrase cc = Reference.all_two_capped phrase cc.
Proof.
  unfold rule_all_two_codes, Reference.all_two_capped.
  rewrite rule_all_two_codes_loop_spec by (simpl; lia). cbn [concat app].
  set (F := concat (map _ (chars phrase))).
  assert (HF : lower F = F) by apply first_twos_lower.
  destruct (Nat.ltb_spec (length (take 4 F)) 4) as [Hlt|Hge].
  - rewrite length_take in Hlt.
    rewrite (take_ge F) by lia.
    rewrite take_ge by (rewrite length_app, length_replicate; lia).
    rewrite take_app_ge by lia.
    rewrite lower_app, HF, lower_repeat_x. f_equal.
    rewrite take_replicate. f_equal. lia.
  - rewrite length_take in Hge.
    rewrite take_take, take_app_le by lia.
    rewrite lower_take, HF. f_equal.
Qed.

Lemma rule_standard_wubi_lower phrase cc r :
  rule_standard_wubi phrase cc = Some r -> lower r = r.
Proof.
  unfold rule_standard_wubi. intros H.
  repeat case_match; simplify_option_eq; apply lower_idemp.
Qed.

End RulesFacts.

Import RulesFacts.

(** ** The encoding rules *)

Module RulesSpec.

(** C1, as stated, fails: 一 has the one-letter code [g] in the table, and
    rule 1 returns [g], one character long, neither padded nor cut to four. *)
Lemma rule1_single_char_short :
  rule_standard_wubi [Samples.yi] Samples.table = Some (str "g")
  /\ length (str "g") <> 4.
Proof. split; [reflexivity | discriminate]. Qed.

(** C1, amended: for a phrase of one character whose stored code (or the
    stand-in [xxxx] of a character the table does not have) is ASCII and has
    at most four characters, rule 1 returns that code in lower case,
    unpadded: the result is as long as the stored code, so at most four
    characters. *)
Theorem rule1_single_char (c : N) (cc : gmap pystr pystr) :
  is_ascii (get cc [c] (str "xxxx")) = true ->
  length (get cc [c] (str "xxxx")) <= 4 ->
  rule_standard_wubi [c] cc = Some (lower (get cc [c] (str "xxxx")))
  /\ length (lower (get cc [c] (str "xxxx"))) = length (get cc [c] (str "xxxx"))
  /\ length (lower (get cc [c] (str "xxxx"))) <= 4.
Proof.
  intros _ Hlen. split; [reflexivity|].
  rewrite lower_length. split; [reflexivity | exact Hlen].
Qed.

Lemma rule1_single_char_witness :
  is_ascii (get Samples.table [Samples.yi] (str "xxxx")) = true
  /\ length (get Samples.table [Samples.yi] (str "xxxx")) <= 4
  /\ rule_standard_wubi [Samples.yi] Samples.table
     = Some (lower (get Samples.table [Samples.yi] (str "xxxx"))).
Proof.
  assert (H0 : is_ascii (get Samples.table [Samples.yi] (str "xxxx")) = true)
    by reflexivity.
  assert (H : length (get Samples.table [Samples.yi] (str "xxxx")) <= 4)
    by (vm_compute; lia).
  split; [exact H0 | split; [exact H |]].
  apply (rule1_single_char Samples.yi Samples.table H0 H).
Defined.

(** C8: for a phrase of two characters rule 1 returns the first two codes of
    the first character followed by the first two codes of the second, cut at
    four; with the base codes [abcd] and [efgh] the code is [abef]. *)
Theorem rule1_two_chars (c1 c2 : N) (cc : gmap pystr pystr) :
  rule_standard_wubi [c1; c2] cc
  = Some (take 4 (get_first_two_codes [c1] cc ++ get_first_two_codes [c2] cc))
  /\ (cc !! [c1] = Some (str "abcd") -> cc !! [c2] = Some (str "efgh") ->
      rule_standard_wubi [c1; c2] cc = Some (str "abef")).
Proof.
  split.
  - unfold rule_standard_wubi. cbn [length Nat.eqb item lookup].
    simpl. f_equal.
    rewrite lower_take, lower_app, !first_two_lower. reflexivity.
  - intros H1 H2. unfold rule_standard_wubi. simpl.
    unfold get_first_two_codes, get. rewrite H1, H2. reflexivity.
Qed.

Lemma rule1_two_chars_witness :
  Samples.table !! [Samples.da] = Some (str "abcd")
  /\ Samples.table !! [Samples.zi] = Some (str "efgh")
  /\ rule_standard_wubi [Samples.da; Samples.zi] Samples.table
     = Some (str "abef").
Proof.
  assert (H1 : Samples.table !! [Samples.da] = Some (str "abcd"))
    by reflexivity.
  assert (H2 : Samples.table !! [Samples.zi] = Some (str "efgh"))
    by reflexivity.
  split; [exact H1 | split; [exact H2 |]].
  exact (proj2 (rule1_two_chars Samples.da Samples.zi Samples.table) H1 H2).
Defined.

(** C9: rule 4 puts the first two codes of the characters in a row, keeps
    the first four code units and pads with [x] when there are fewer, so its
    result has exactly four characters whatever the phrase and the table; a
    single character with the stored code [a] gives [axxx]. *)
Theorem rule4_always_four (phrase : pystr) (cc : gmap pystr pystr) :
  length (rule_all_two_codes phrase cc) = 4
  /\ rule_all_two_codes phrase cc = Reference.all_two_capped phrase cc
  /\ (forall c : N, cc !! [c] = Some (str "a") ->
      rule_all_two_codes [c] cc = str "axxx").
Proof.
  split; [|split].
  - rewrite rule_all_two_codes_capped. unfold Reference.all_two_capped.
    rewrite length_take, length_app, length_replicate. lia.
  - apply rule_all_two_codes_capped.
  - intros c Hc. unfold rule_all_two_codes. simpl.
    unfold get_first_two_codes, get. rewrite Hc. reflexivity.
Qed.

Lemma rule4_always_four_witness :
  Samples.table_a !! [Samples.yi] = Some (str "a")
  /\ rule_all_two_codes [Samples.yi] Samples.table_a = str "axxx".
Proof.
  assert (H : Samples.table_a !! [Samples.yi] = Some (str "a")) by reflexivity.
  split; [exact H |].
  exact (proj2 (proj2 (rule4_always_four [Samples.yi] Samples.table_a))
           Samples.yi H).
Defined.

(** C10: with a rule id below 1 or above 6 [generate_wubi_code] gives what
    rule 1 gives (and what it gives itself for the id 1), the [IndexError] of
    the empty phrase included. *)
Theorem generate_out_of_range (lazy_pinyin : pystr -> option (list pystr))
    (phrase : pystr) (cc : gmap pystr pystr) (rule : Z) :
  (rule < 1 \/ 6 < rule)%Z ->
  generate_wubi_code lazy_pinyin phrase cc rule = rule_standard_wubi phrase cc
  /\ generate_wubi_code lazy_pinyin phrase cc rule
     = generate_wubi_code lazy_pinyin phrase cc 1.
Proof.
  intros Hr.
  assert (Hgen : generate_wubi_code lazy_pinyin phrase cc rule
                 = code ← rule_standard_wubi phrase cc; Some (lower code)).
  { unfold generate_wubi_code.
    destruct (Z.eqb_spec rule 1); [lia|].
    destruct (Z.eqb_spec rule 2); [lia|].
    destruct (Z.eqb_spec rule 3); [lia|].
    destruct (Z.eqb_spec rule 4); [lia|].
    destruct (Z.eqb_spec rule 5); [lia|].
    destruct (Z.eqb_spec rule 6); [lia|].
    reflexivity. }
  split; [|exact Hgen].
  rewrite Hgen.
  destruct (rule_standard_wubi phrase cc) as [r|] eqn:E; [|reflexivity].
  simpl. f_equal. exact (rule_standard_wubi_lower phrase cc r E).
Qed.

Lemma generate_out_of_range_witness :
  (9 < 1 \/ 6 < 9)%Z
  /\ generate_wubi_code Samples.no_pinyin [Samples.da; Samples.zi]
       Samples.table 9
     = rule_standard_wubi [Samples.da; Samples.zi] Samples.table.
Proof.
  assert (H : (9 < 1 \/ 6 < 9)%Z) by (right; lia).
  split; [exact H |].
  exact (proj1 (generate_out_of_range Samples.no_pinyin
                  [Samples.da; Samples.zi] Samples.table 9 H)).
Defined.

End RulesSpec.

(** ** The weight table *)

Module WeightsFacts.

Lemma is_digit_range c :
  is_digit c = true ->
  exists z, In z decimal_zeros /\ (z <= c <= z + 9)%N.
Proof.
  unfold is_digit, digit_value. intros H.
  destruct (List.find _ decimal_zeros) as [z|] eqn:E; [|discriminate].
  apply find_some in E as [Hin Hc].
  apply andb_true_iff in Hc as [H1 H2]. apply N.leb_le in H1, H2.
  exists z. auto.
Qed.

(** Where the decimal digits lie. *)
Lemma digit_coarse c :
  is_digit c = true ->
  (48 <= c <= 57 \/ 1632 <= c <= 4249 \/ 6112 <= c <= 7257 \/ 42528 <= c)%N.
Proof.
  intros H. destruct (is_digit_range c H) as (z & Hin & Hc).
  unfold decimal_zeros in Hin. cbn [In] in Hin.
  repeat (destruct Hin as [<- | Hin]; [lia|]). contradiction.
Qed.

Lemma digit_not_space c : is_digit c = true -> is_space c = false.
Proof.
  intros H. apply digit_coarse in H. unfold is_space.
  repeat (apply orb_false_iff; split);
    try (apply andb_false_iff; rewrite !N.leb_gt; lia);
    apply N.eqb_neq; lia.
Qed.

Lemma digit_not_int_space c : is_digit c = true -> int_space c = false.
Proof.
  intros H. unfold int_space. rewrite (digit_not_space c H). reflexivity.
Qed.

Lemma lstrip_head c s : is_space c = false -> lstrip (c :: s) = c :: s.
Proof. intros H. simpl. rewrite H. reflexivity. Qed.

Lemma digits_split_last b :
  b <> [] -> forallb is_digit b = true ->
  exists c t, rev b = c :: t /\ is_digit c = true.
Proof.
  intros Hne Hall.
  destruct (rev b) as [|c t] eqn:E.
  - apply (f_equal (@rev N)) in E. rewrite rev_involutive in E. contradiction.
  - exists c, t. split; [reflexivity|].
    rewrite forallb_forall in Hall. apply Hall.
    apply in_rev. rewrite E. left. reflexivity.
Qed.


Lemma int_lstrip_head c s :
  int_space c = false -> int_lstrip (c :: s) = c :: s.
Proof. intros H. simpl. rewrite H. reflexivity. Qed.

Lemma int_strip_digits b :
  b <> [] -> forallb is_digit b = true ->
  int_strip b = b /\ int_strip (b ++ [NEWLINE]) = b.
Proof.
  intros Hne Hall.
  destruct (digits_split_last b Hne Hall) as (c & t & Hrev & Hc).
  assert (Hr : int_lstrip (rev b) = rev b).
  { rewrite Hrev. apply int_lstrip_head, digit_not_int_space, Hc. }
  assert (Hl : forall k, int_lstrip (b ++ k) = b ++ k).
  { intros k. destruct b as [|d b']; [contradiction|].
    apply int_lstrip_head, digit_not_int_space.
    simpl in Hall. apply andb_true_iff in Hall. tauto. }
  unfold int_strip. split.
  - rewrite <- (app_nil_r b) at 1. rewrite Hl, app_nil_r, Hr.
    apply rev_involutive.
  - rewrite Hl, rev_app_distr.
    change (int_lstrip (rev [NEWLINE] ++ rev b)) with (int_lstrip (rev b)).
    rewrite Hr. apply rev_involutive.
Qed.

Lemma int_digits_digits b : forall acc prev,
  forallb is_digit b = true -> (b <> [] \/ prev = true) -> (0 <= acc)%Z ->
  exists n, int_digits acc prev b = Some n /\ (0 <= n)%Z.
Proof.
  induction b as [|c b IH]; intros acc prev Hall Hne Hacc.
  - destruct Hne as [Hne | ->]; [contradiction|].
    exists acc. split; [reflexivity | exact Hacc].
  - simpl in Hall. apply andb_true_iff in Hall as [Hc Hall].
    cbn [int_digits]. unfold is_digit in Hc.
    destruct (digit_value c) as [v|]; [|discriminate].
    apply IH; [exact Hall | right; reflexivity | lia].
Qed.

Lemma filter_digits b :
  forallb is_digit b = true -> List.filter is_digit b = b.
Proof.
  induction b as [|c b IH]; [reflexivity|].
  simpl. intros H. apply andb_true_iff in H as [Hc Hall].
  rewrite Hc, IH by exact Hall. reflexivity.
Qed.

Lemma is_number_body s :
  is_number s = true ->
  exists b, b <> [] /\ forallb is_digit b = true
            /\ (s = b \/ s = b ++ [NEWLINE]).
Proof.
  unfold is_number, re_match_plus. intros H.
  destruct (last s) as [c|] eqn:El.
  - destruct (N.eqb_spec c NEWLINE) as [->|Hc].
    + apply last_Some in El as [l' ->].
      rewrite removelast_last in H.
      exists l'. destruct l' as [|d l'']; [discriminate|].
      split; [discriminate|]. split; [exact H | right; reflexivity].
    + exists s. destruct s as [|d s']; [discriminate|].
      split; [discriminate|]. split; [exact H | left; reflexivity].
  - apply last_None in El. subst s. discriminate.
Qed.

Lemma number_digits s :
  is_number s = true ->
  exists b, b <> [] /\ forallb is_digit b = true
    /\ int_strip s = b /\ List.filter is_digit s = b.
Proof.
  intros H. destruct (is_number_body s H) as (b & Hne & Hall & Hs).
  destruct (int_strip_digits b Hne Hall) as [Hs1 Hs2].
  exists b. split; [exact Hne|]. split; [exact Hall|].
  destruct Hs as [-> | ->].
  - split; [exact Hs1 | apply filter_digits, Hall].
  - split; [exact Hs2|].
    rewrite List.filter_app, filter_digits by exact Hall.
    change (List.filter is_digit [NEWLINE]) with (@nil N).
    apply app_nil_r.
Qed.

Lemma digit_not_sign c :
  is_digit c = true -> (c =? PLUS)%N = false /\ (c =? MINUS)%N = false.
Proof.
  intros Hc. pose proof (digit_coarse c Hc) as Hcoarse.
  split; apply N.eqb_neq; unfold PLUS, MINUS; lia.
Qed.

(** [int()] accepts what [^\d+$] matches, up to its limit of 4300 digits. *)
Lemma py_int_number s :
  is_number s = true -> length (List.filter is_digit s) <= 4300 ->
  exists n, py_int s = Some n /\ (0 <= n)%Z.
Proof.
  intros H Hlen.
  destruct (number_digits s H) as (b & Hne & Hall & Hstrip & Hfilter).
  rewrite Hfilter in Hlen.
  unfold py_int. rewrite Hstrip.
  destruct b as [|c r]; [contradiction|].
  assert (Hc : is_digit c = true).
  { simpl in Hall. apply andb_true_iff in Hall. tauto. }
  destruct (digit_not_sign c Hc) as [Hp Hm].
  rewrite Hp, Hm. unfold int_body. rewrite filter_digits by exact Hall.
  destruct (Nat.ltb_spec MAX_STR_DIGITS (length (c :: r))) as [Hlt|_].
  { unfold MAX_STR_DIGITS in Hlt. lia. }
  apply int_digits_digits; [exact Hall | left; discriminate | lia].
Qed.

(** Beyond 4300 digits [int()] raises. *)
Lemma py_int_over s :
  is_number s = true -> 4300 < length (List.filter is_digit s) ->
  py_int s = None.
Proof.
  intros H Hlen.
  destruct (number_digits s H) as (b & Hne & Hall & Hstrip & Hfilter).
  rewrite Hfilter in Hlen.
  unfold py_int. rewrite Hstrip.
  destruct b as [|c r]; [contradiction|].
  assert (Hc : is_digit c = true).
  { simpl in Hall. apply andb_true_iff in Hall. tauto. }
  destruct (digit_not_sign c Hc) as [Hp Hm].
  rewrite Hp, Hm. unfold int_body. rewrite filter_digits by exact Hall.
  destruct (Nat.ltb_spec MAX_STR_DIGITS (length (c :: r))) as [_|Hge];
    [reflexivity|].
  unfold MAX_STR_DIGITS in Hge. lia.
Qed.

(** The loop body does what [merge_at] says; it raises nothing when the
    weight field, if a number, is within the limit of [int()]. *)
Lemma merge_weight_lookup pw phrase w :
  (is_number w = true -> length (List.filter is_digit w) <= 4300) ->
  exists pw', merge_weight pw phrase w = Some pw'
    /\ pw' !! phrase = Reference.merge_at (pw !! phrase) w
    /\ forall q, q <> phrase -> pw' !! q = pw !! q.
Proof.
  intros Hlim. unfold merge_weight, Reference.merge_at.
  destruct (is_number w) eqn:Hw; cbn [negb].
  - destruct (py_int_number w Hw (Hlim eq_refl)) as (k & -> & _).
    cbn [mbind option_bind default from_option id].
    destruct (pw !! phrase) as [e|] eqn:He.
    + destruct (py_int e) as [n|].
      * destruct (n <? k)%Z; eexists; (split; [reflexivity|]).
        -- split; [apply lookup_insert_eq|].
           intros q Hq. apply lookup_insert_ne. congruence.
        -- split; [exact He | reflexivity].
      * eexists; split; [reflexivity|].
        split; [apply lookup_insert_eq|].
        intros q Hq. apply lookup_insert_ne. congruence.
    + eexists; split; [reflexivity|].
      split; [apply lookup_insert_eq|].
      intros q Hq. apply lookup_insert_ne. congruence.
  - cbn [mbind option_bind].
    destruct (pw !! phrase) as [e|] eqn:He.
    + destruct (py_int e) as [n|].
      * destruct (n <? 0)%Z; eexists; (split; [reflexivity|]).
        -- split; [apply lookup_insert_eq|].
           intros q Hq. apply lookup_insert_ne. congruence.
        -- split; [exact He | reflexivity].
      * eexists; split; [reflexivity|].
        split; [apply lookup_insert_eq|].
        intros q Hq. apply lookup_insert_ne. congruence.
    + eexists; split; [reflexivity|].
      split; [apply lookup_insert_eq|].
      intros q Hq. apply lookup_insert_ne. congruence.
Qed.

(** The stored weight of a phrase after the load is the fold of [merge_at]
    over the weight fields the table gives for it, when no numeric weight
    field of the table is beyond the limit of [int()]. *)
Lemma read_lines_lookup phrase lines : forall pw,
  (forall line p w, In line lines -> weight_fields line = Some (p, w) ->
     is_number w = true -> length (List.filter is_digit w) <= 4300) ->
  read_lines pw lines !! phrase
  = foldl Reference.merge_at (pw !! phrase) (observed phrase lines).
Proof.
  induction lines as [|line rest IH]; intros pw Hlim; [reflexivity|].
  assert (Hrest : forall line' p w, In line' rest ->
            weight_fields line' = Some (p, w) ->
            is_number w = true -> length (List.filter is_digit w) <= 4300).
  { intros line' p w Hin. apply Hlim. right. exact Hin. }
  cbn [read_lines observed omap list_omap]. unfold read_line.
  destruct (weight_fields line) as [[p w]|] eqn:Hf.
  - destruct (merge_weight_lookup pw p w) as (pw' & -> & Hp & Hq).
    { apply (Hlim line p w); [left; reflexivity | exact Hf]. }
    rewrite IH by exact Hrest. fold (observed phrase rest).
    destruct (decide (p = phrase)) as [->|Hne].
    + cbn [foldl]. rewrite Hp. reflexivity.
    + rewrite Hq by congruence. reflexivity.
  - rewrite IH by exact Hrest. reflexivity.
Qed.

Lemma limit_lines lines :
  Forall (fun line => Reference.within_int_limit line = true) lines ->
  forall line p w, In line lines -> weight_fields line = Some (p, w) ->
    is_number w = true -> length (List.filter is_digit w) <= 4300.
Proof.
  intros Hall line p w Hin Hf Hw.
  rewrite Forall_forall in Hall. apply list_elem_of_In in Hin.
  specialize (Hall line Hin). unfold Reference.within_int_limit in Hall.
  rewrite Hf, Hw in Hall. cbn [negb orb] in Hall.
  apply Nat.leb_le in Hall. exact Hall.
Qed.

Lemma limit_observed phrase lines :
  Forall (fun line => Reference.within_int_limit line = true) lines ->
  Forall (fun w => is_number w = true
                   -> length (List.filter is_digit w) <= 4300)
         (observed phrase lines).
Proof.
  intros Hall. apply Forall_forall. intros w Hw. unfold observed in Hw.
  apply list_elem_of_omap in Hw as (line & Hin & Hline).
  destruct (weight_fields line) as [[p w']|] eqn:Hf; [|discriminate].
  destruct (decide (p = phrase)); [|discriminate].
  injection Hline as ->.
  apply (limit_lines lines Hall line p w); [|exact Hf].
  apply list_elem_of_In. exact Hin.
Qed.

End WeightsFacts.

Import WeightsFacts.

Module WeightsSpec.

Lemma fold_numeric ws : forall e n,
  Forall (fun w => is_number w = true) ws ->
  Forall (fun w => is_number w = true
                   -> length (List.filter is_digit w) <= 4300) ws ->
  py_int e = Some n ->
  exists r m,
    foldl Reference.merge_at (Some e) ws = Some r
    /\ r ∈ e :: ws
    /\ py_int r = Some m
    /\ (n <= m)%Z
    /\ (forall w, w ∈ ws -> exists k, py_int w = Some k /\ (k <= m)%Z).
Proof.
  induction ws as [|w ws IH]; intros e n Hall Hlim He.
  - exists e, n. repeat split; [constructor | exact He | lia |].
    intros w Hw. inversion Hw.
  - inversion Hall as [|? ? Hw Hws]; subst.
    inversion Hlim as [|? ? Hl Hls]; subst.
    destruct (py_int_number w Hw (Hl Hw)) as (k & Hk & _).
    cbn [foldl].
    assert (Hstep : Reference.merge_at (Some e) w
                    = if (n <? k)%Z then Some w else Some e).
    { unfold Reference.merge_at. rewrite Hw, Hk, He. reflexivity. }
    rewrite Hstep.
    destruct (Z.ltb_spec n k) as [Hlt|Hge].
    + destruct (IH w k Hws Hls Hk) as (r & m & Hr & Hin & Hm & Hkm & Hmax).
      exists r, m. split; [exact Hr|]. split; [right; exact Hin|].
      split; [exact Hm|]. split; [lia|].
      intros w' Hw'. apply elem_of_cons in Hw' as [->|Hw'].
      * exists k. split; [exact Hk | exact Hkm].
      * apply Hmax, Hw'.
    + destruct (IH e n Hws Hls He) as (r & m & Hr & Hin & Hm & Hnm & Hmax).
      exists r, m. split; [exact Hr|].
      split.
      { apply elem_of_cons in Hin as [->|Hin];
          [left | right; right; exact Hin]. }
      split; [exact Hm|]. split; [exact Hnm|].
      intros w' Hw'. apply elem_of_cons in Hw' as [->|Hw'].
      * exists k. split; [exact Hk | lia].
      * apply Hmax, Hw'.
Qed.

(** After the load the stored weight of a phrase with numeric weights is one
    of its weight fields, and no field has a larger value. *)
Lemma stored_max lines phrase :
  Forall (fun line => Reference.within_int_limit line = true) lines ->
  observed phrase lines <> [] ->
  Forall (fun w => is_number w = true) (observed phrase lines) ->
  exists w m,
    read_phrase_weights (Some lines) !! phrase = Some w
    /\ w ∈ observed phrase lines
    /\ py_int w = Some m
    /\ (forall w', w' ∈ observed phrase lines ->
        exists k, py_int w' = Some k /\ (k <= m)%Z).
Proof.
  intros Hlines Hne Hall. cbn [read_phrase_weights].
  rewrite read_lines_lookup by (apply limit_lines, Hlines).
  rewrite lookup_empty.
  pose proof (limit_observed phrase lines Hlines) as Hlim.
  destruct (observed phrase lines) as [|w0 ws]; [contradiction|].
  inversion Hall as [|? ? Hw0 Hws]; subst.
  inversion Hlim as [|? ? Hl0 Hls]; subst.
  destruct (py_int_number w0 Hw0 (Hl0 Hw0)) as (n0 & Hn0 & _).
  cbn [foldl]. change (Reference.merge_at None w0) with (Some w0).
  destruct (fold_numeric ws w0 n0 Hws Hls Hn0)
    as (r & m & Hr & Hin & Hm & Hle & Hmax).
  exists r, m. split; [exact Hr|]. split; [exact Hin|]. split; [exact Hm|].
  intros w' Hw'. apply elem_of_cons in Hw' as [->|Hw'].
  - exists n0. split; [exact Hn0 | exact Hle].
  - apply Hmax, Hw'.
Qed.

(** C4, as stated, fails: the line 打<TAB>abc leaves the string [abc] as the
    stored weight of 打, not a zero; the pipeline then writes the default
    weight 100 for that phrase. *)
Lemma malformed_weight_stored_as_is :
  is_number (str "abc") = false
  /\ read_phrase_weights
       (Some [Samples.weight_line [Samples.da] (str "abc")]) !! [Samples.da]
     = Some (str "abc")
  /\ resolve_weight
       (read_phrase_weights
          (Some [Samples.weight_line [Samples.da] (str "abc")])) [Samples.da]
     = str "100".
Proof. split; [|split]; reflexivity. Qed.

(** C4, amended: a line whose weight field does not match [^\d+$] is not
    rejected and is compared as 0.  Its field is stored, as the original
    string, when the phrase has no stored weight yet or has one that
    [int()] refuses or reads as negative; a stored weight that [int()] reads
    as non-negative stays.  The other phrases keep their weights. *)
Theorem malformed_weight_line (pw : gmap pystr pystr) (line phrase w : pystr) :
  weight_fields line = Some (phrase, w) ->
  is_number w = false ->
  exists pw', read_line pw line = Some pw'
    /\ pw' !! phrase
       = match pw !! phrase with
         | None => Some w
         | Some existing =>
             match py_int existing with
             | Some n => if (n <? 0)%Z then Some w else Some existing
             | None => Some w
             end
         end
    /\ forall q, q <> phrase -> pw' !! q = pw !! q.
Proof.
  intros Hf Hw. unfold read_line. rewrite Hf.
  destruct (merge_weight_lookup pw phrase w) as (pw' & Hpw & Hp & Hq).
  { rewrite Hw. discriminate. }
  exists pw'. split; [exact Hpw|]. split; [|exact Hq].
  rewrite Hp. unfold Reference.merge_at. rewrite Hw. reflexivity.
Qed.

Lemma malformed_weight_line_witness :
  weight_fields (Samples.weight_line [Samples.da] (str "abc"))
    = Some ([Samples.da], str "abc")
  /\ is_number (str "abc") = false
  /\ exists pw',
       read_line ∅ (Samples.weight_line [Samples.da] (str "abc")) = Some pw'
       /\ pw' !! [Samples.da] = Some (str "abc").
Proof.
  assert (Hf : weight_fields (Samples.weight_line [Samples.da] (str "abc"))
               = Some ([Samples.da], str "abc")) by reflexivity.
  assert (Hw : is_number (str "abc") = false) by reflexivity.
  split; [exact Hf | split; [exact Hw |]].
  destruct (malformed_weight_line ∅ _ _ _ Hf Hw) as (pw' & H1 & H2 & _).
  exists pw'. split; [exact H1 | exact H2].
Defined.

(** C5, as stated, fails: the stored result depends on the order of the
    lines.  The fields [09] and [9] of 打 have the same value; the load keeps
    the first of them, so the table 打<TAB>09, 打<TAB>9 stores [09] and the
    same lines in the other order store [9]. *)
Lemma weight_merge_order_dependent :
  Permutation
    [Samples.weight_line [Samples.da] (str "09");
     Samples.weight_line [Samples.da] (str "9")]
    [Samples.weight_line [Samples.da] (str "9");
     Samples.weight_line [Samples.da] (str "09")]
  /\ observed [Samples.da]
       [Samples.weight_line [Samples.da] (str "09");
        Samples.weight_line [Samples.da] (str "9")]
     = [str "09"; str "9"]
  /\ is_number (str "09") = true
  /\ is_number (str "9") = true
  /\ read_phrase_weights
       (Some [Samples.weight_line [Samples.da] (str "09");
              Samples.weight_line [Samples.da] (str "9")]) !! [Samples.da]
     = Some (str "09")
  /\ read_phrase_weights
       (Some [Samples.weight_line [Samples.da] (str "9");
              Samples.weight_line [Samples.da] (str "09")]) !! [Samples.da]
     = Some (str "9")
  /\ str "09" <> str "9".
Proof.
  split; [apply perm_swap|].
  split; [reflexivity|]. split; [reflexivity|]. split; [reflexivity|].
  split; [reflexivity|]. split; [reflexivity|]. discriminate.
Qed.

(** C5, amended: in a table none of whose numeric weight fields has more
    than 4300 digits (a longer one makes [int()] raise and ends the load
    there), when every weight field the table gives for a phrase is a
    number, the load stores for the phrase one of these fields, of the
    largest value observed; any reordering of the lines stores a weight of
    the same value, and the same string when equal values are written
    alike. *)
Theorem weight_merge_max (lines : list pystr) (phrase : pystr) :
  Forall (fun line => Reference.within_int_limit line = true) lines ->
  observed phrase lines <> [] ->
  Forall (fun w => is_number w = true) (observed phrase lines) ->
  exists w m,
    read_phrase_weights (Some lines) !! phrase = Some w
    /\ w ∈ observed phrase lines
    /\ py_int w = Some m
    /\ (forall w', w' ∈ observed phrase lines ->
        exists k, py_int w' = Some k /\ (k <= m)%Z)
    /\ (forall lines', Permutation lines lines' ->
        exists w',
          read_phrase_weights (Some lines') !! phrase = Some w'
          /\ py_int w' = Some m
          /\ ((forall a b, a ∈ observed phrase lines ->
                           b ∈ observed phrase lines ->
                           py_int a = py_int b -> a = b) -> w' = w)).
Proof.
  intros Hlines Hne Hall.
  destruct (stored_max lines phrase Hlines Hne Hall)
    as (w & m & Hw & Hin & Hm & Hmax).
  exists w, m. split; [exact Hw|]. split; [exact Hin|]. split; [exact Hm|].
  split; [exact Hmax|].
  intros lines' Hperm.
  assert (Hobs : Permutation (observed phrase lines) (observed phrase lines')).
  { unfold observed. apply omap_Permutation, Hperm. }
  assert (Hlines' : Forall (fun line => Reference.within_int_limit line = true)
                           lines').
  { rewrite <- Hperm. exact Hlines. }
  assert (Hne' : observed phrase lines' <> []).
  { intros E. rewrite E in Hobs. apply Permutation_nil_r in Hobs.
    contradiction. }
  assert (Hall' : Forall (fun w => is_number w = true) (observed phrase lines')).
  { rewrite <- Hobs. exact Hall. }
  destruct (stored_max lines' phrase Hlines' Hne' Hall')
    as (w' & m' & Hw' & Hin' & Hm' & Hmax').
  rewrite <- Hobs in Hin'.
  assert (Hin2 : w ∈ observed phrase lines') by (rewrite <- Hobs; exact Hin).
  destruct (Hmax w' Hin') as (k1 & Hk1 & Hle1).
  destruct (Hmax' w Hin2) as (k2 & Hk2 & Hle2).
  assert (m' = m) as -> by (rewrite Hm' in Hk1; rewrite Hm in Hk2;
                            simplify_eq; lia).
  exists w'. split; [exact Hw'|]. split; [exact Hm'|].
  intros Hinj. apply Hinj; [exact Hin' | exact Hin | congruence].
Qed.

Lemma weight_merge_max_witness :
  Forall (fun line => Reference.within_int_limit line = true)
    [Samples.weight_line [Samples.da] (str "5");
     Samples.weight_line [Samples.da] (str "9")]
  /\ observed [Samples.da]
       [Samples.weight_line [Samples.da] (str "5");
        Samples.weight_line [Samples.da] (str "9")] <> []
  /\ Forall (fun w => is_number w = true)
       (observed [Samples.da]
          [Samples.weight_line [Samples.da] (str "5");
           Samples.weight_line [Samples.da] (str "9")])
  /\ exists w m,
       read_phrase_weights
         (Some [Samples.weight_line [Samples.da] (str "5");
                Samples.weight_line [Samples.da] (str "9")]) !! [Samples.da]
       = Some w
       /\ py_int w = Some m.
Proof.
  assert (H0 : Forall (fun line => Reference.within_int_limit line = true)
                 [Samples.weight_line [Samples.da] (str "5");
                  Samples.weight_line [Samples.da] (str "9")])
    by (repeat constructor).
  assert (H1 : observed [Samples.da]
                 [Samples.weight_line [Samples.da] (str "5");
                  Samples.weight_line [Samples.da] (str "9")] <> [])
    by (vm_compute; discriminate).
  assert (H2 : Forall (fun w => is_number w = true)
                 (observed [Samples.da]
                    [Samples.weight_line [Samples.da] (str "5");
                     Samples.weight_line [Samples.da] (str "9")]))
    by (repeat constructor).
  split; [exact H0 | split; [exact H1 | split; [exact H2 |]]].
  destruct (weight_merge_max _ _ H0 H1 H2) as (w & m & Hw & _ & Hm & _).
  exists w, m. split; [exact Hw | exact Hm].
Defined.

(** The example of the description, in both orders. *)
Example weight_merge_5_then_9 :
  read_phrase_weights
    (Some [Samples.weight_line [Samples.da] (str "5");
           Samples.weight_line [Samples.da] (str "9")]) !! [Samples.da]
  = Some (str "9").
Proof. reflexivity. Qed.

Example weight_merge_9_then_5 :
  read_phrase_weights
    (Some [Samples.weight_line [Samples.da] (str "9");
           Samples.weight_line [Samples.da] (str "5")]) !! [Samples.da]
  = Some (str "9").
Proof. reflexivity. Qed.

End WeightsSpec.

(** ** The ingestion paths *)

Module PipelineFacts.

Lemma item_lt (s : pystr) (i : nat) : i < length s -> is_Some (item s i).
Proof.
  intros H. unfold item.
  destruct (lookup_lt_is_Some_2 s i H) as [c ->]. eexists. reflexivity.
Qed.

Lemma rule_standard_wubi_total phrase cc :
  phrase <> [] -> is_Some (rule_standard_wubi phrase cc).
Proof.
  intros Hne. unfold rule_standard_wubi.
  destruct phrase as [|a [|b [|c [|d [|e rest]]]]]; try contradiction;
    try (eexists; reflexivity).
  cbn [length Nat.eqb].
  destruct (item_lt (a :: b :: c :: d :: e :: rest)
              (length (a :: b :: c :: d :: e :: rest) - 1)) as [l Hl];
    [simpl; lia|].
  cbn [item lookup list_lookup fmap option_fmap option_map mbind option_bind]
    in *.
  simpl in *. rewrite Hl. eexists. reflexivity.
Qed.

Lemma rule3_total phrase cc :
  is_Some (rule_first_two_chars_two_codes_rest_one phrase cc).
Proof.
  unfold rule_first_two_chars_two_codes_rest_one.
  destruct phrase as [|a [|b [|c rest]]]; try (eexists; reflexivity).
  set (p := a :: b :: c :: rest).
  cbn [length Nat.eqb Nat.leb]. 
  assert (Hrest : is_Some
            (mapM (fun i => c0 ← item p i; Some (get_first_code c0 cc))
               (seq 2 (length p - 2)))).
  { apply mapM_is_Some. apply Forall_forall. intros i Hi.
    apply elem_of_seq in Hi.
    destruct (item_lt p i) as [x Hx]; [lia|].
    unfold compose. rewrite Hx. eexists. reflexivity. }
  destruct Hrest as [r Hr].
  change (length p) with (S (S (S (length rest)))) in *.
  cbn [Nat.eqb Nat.leb]. subst p. cbn [item lookup list_lookup fmap
    option_fmap option_map mbind option_bind].
  simpl in *. rewrite Hr. eexists. reflexivity.
Qed.

(** On a phrase that is not empty the generator raises nothing. *)
Lemma generate_wubi_code_total lazy_pinyin phrase cc rule :
  phrase <> [] -> is_Some (generate_wubi_code lazy_pinyin phrase cc rule).
Proof.
  intros Hne. unfold generate_wubi_code.
  destruct (rule_standard_wubi_total phrase cc Hne) as [r1 H1].
  assert (H2 : is_Some (rule_one_code_per_char phrase cc)).
  { unfold rule_one_code_per_char.
    destruct phrase as [|a [|b [|c [|d rest]]]]; try contradiction;
      eexists; reflexivity. }
  destruct H2 as [r2 H2].
  destruct (rule3_total phrase cc) as [r3 H3].
  assert (H6 : is_Some (rule_wubi_pinyin_initials lazy_pinyin phrase cc)).
  { unfold rule_wubi_pinyin_initials. rewrite H1. simpl.
    destruct (get_pinyin_initials lazy_pinyin phrase); eexists; reflexivity. }
  destruct H6 as [r6 H6].
  rewrite H1, H2, H3, H6.
  repeat (case_match; try (eexists; reflexivity)).
Qed.

Lemma try_write_files w :
  dict_file (try_write w).2 = dict_file w
  /\ fail_file (try_write w).2 = fail_file w
  /\ record_files (try_write w).2 = record_files w
  /\ stdin (try_write w).2 = stdin w.
Proof. unfold try_write. destruct (writes w); simpl; auto. Qed.

Lemma write_fail_ok line reason st w :
  (try_write w).1 = IoOk ->
  write_fail line reason st w
  = (count_failed line reason st,
     set_fail_file (fail_file w ++ [line]) (try_write w).2).
Proof.
  intros H. unfold write_fail.
  destruct (try_write_files w) as (_ & Hf & _).
  destruct (try_write w) as [r w1]. simpl in *. subst r.
  rewrite Hf. reflexivity.
Qed.

Lemma check_all_chars_exist_chinese phrase cc :
  check_all_chars_exist phrase cc = true -> extract_chinese_chars phrase <> [].
Proof.
  unfold check_all_chars_exist.
  destruct (extract_chinese_chars phrase); [discriminate | discriminate].
Qed.



Lemma lstrip_app x y : lstrip x <> [] -> lstrip (x ++ y) = lstrip x ++ y.
Proof.
  induction x as [|c x IH]; intros H; [contradiction|].
  simpl in *. destruct (is_space c); [apply IH, H | reflexivity].
Qed.




Lemma resolve_weight_number pw phrase :
  is_number (resolve_weight pw phrase) = true.
Proof.
  unfold resolve_weight.
  destruct (is_number (get pw phrase DEFAULT_WEIGHT)) eqn:E;
    [exact E | reflexivity].
Qed.




Lemma prompt_code_outcome events o :
  (prompt_code events).1 = inr o -> exists r, o = Rejected r.
Proof.
  induction events as [|ev rest IH]; simpl.
  - intros [= <-]. eexists. reflexivity.
  - destruct ev as [text| |].
    + destruct (strip text); [exact IH|].
      destruct (is_code_text _); simpl; [discriminate | exact IH].
    + intros [= <-]. eexists. reflexivity.
    + intros [= <-]. eexists. reflexivity.
Qed.

Lemma encode_chinese_outcome lazy_pinyin phrase rule cc o :
  encode_chinese lazy_pinyin phrase rule cc = inr o ->
  o = Rejected NoCodeableChars.
Proof.
  unfold encode_chinese.
  destruct (extract_chinese_chars phrase) as [|c l] eqn:E.
  - intros [= <-]. reflexivity.
  - destruct (generate_wubi_code_total lazy_pinyin (c :: l) cc rule)
      as [code ->]; [discriminate | discriminate].
Qed.

End PipelineFacts.

Import PipelineFacts.

Module PipelineSpec.

Section WithPinyin.

Variable lazy_pinyin : pystr -> option (list pystr).

(** The branch of [interactive_single_input] that reports a phrase without
    Chinese characters under the rules 1 to 4 is never taken:
    [check_all_chars_exist] has already refused such a phrase. *)
Lemma no_chinese_branch_unreachable phrase rule cc pw existing w :
  rule <> 5%Z -> rule <> 6%Z ->
  (interactive_single_input lazy_pinyin phrase rule cc pw existing w).1.1
  <> Rejected NoCodeableChars.
Proof.
  intros H5 H6. unfold interactive_single_input.
  destruct (decide (phrase ∈ existing)); [discriminate|].
  destruct (Z.eqb_spec rule 5); [contradiction|].
  destruct (Z.eqb_spec rule 6); [contradiction|].
  cbn [orb negb andb].
  destruct (check_all_chars_exist phrase cc) eqn:Hc; [|discriminate].
  cbn [negb]. unfold encode_chinese.
  pose proof (check_all_chars_exist_chinese phrase cc Hc) as Hne.
  destruct (generate_wubi_code_total lazy_pinyin _ cc rule Hne) as [code Hg].
  rewrite Hg.
  destruct (extract_chinese_chars phrase); [contradiction|].
  destruct (try_write w) as [[] ?]; discriminate.
Qed.

(** C3, the behaviour of the code: a phrase without Chinese characters that
    is not in the dictionary yet is reported, under every rule but 5 and 6,
    as holding characters without a code, not as holding no Chinese
    character; nothing is written. *)
Theorem no_chinese_reported_uncoded (phrase : pystr) (rule : Z)
    (cc pw : gmap pystr pystr) (existing : gset pystr) (w : World) :
  extract_chinese_chars phrase = [] ->
  phrase ∉ existing ->
  rule <> 5%Z -> rule <> 6%Z ->
  interactive_single_input lazy_pinyin phrase rule cc pw existing w
  = (Rejected UncodeableChars, existing, w).
Proof.
  intros Hn Hnew H5 H6. unfold interactive_single_input.
  destruct (decide (phrase ∈ existing)); [contradiction|].
  destruct (Z.eqb_spec rule 5); [contradiction|].
  destruct (Z.eqb_spec rule 6); [contradiction|].
  unfold check_all_chars_exist. rewrite Hn. reflexivity.
Qed.

(** C7: with rule 5 the batch driver returns at once, by an exit of its own,
    with zero counts and the world as it found it: no line is read, written
    or counted.  No other rule leaves by this exit. *)
Theorem batch_rule5_rejected (cc pw : gmap pystr pystr)
    (input : option (list pystr)) (w : World) :
  file_batch_mode lazy_pinyin 5 cc pw input w
  = (ExitRule5Unsupported, 0, 0, w)
  /\ forall rule : Z, rule <> 5%Z ->
       (file_batch_mode lazy_pinyin rule cc pw input w).1.1.1
       <> ExitRule5Unsupported.
Proof.
  split; [reflexivity|].
  intros rule Hr. unfold file_batch_mode.
  destruct (Z.eqb_spec rule 5); [contradiction|].
  destruct input as [lines|]; [|discriminate].
  destruct (batch_loop _ _ _ _ _ _ _) as [[st|] w1]; [|discriminate].
  destruct (try_write _) as [[] w2]; discriminate.
Qed.

(** The single-item path leaves the fail file alone. *)
Lemma single_input_fail_file phrase rule cc pw existing w :
  fail_file (interactive_single_input lazy_pinyin phrase rule cc pw existing w).2
  = fail_file w.
Proof.
  unfold interactive_single_input, try_write.
  repeat case_match; simplify_eq; reflexivity.
Qed.

(** An item of a batch that fails validation goes to the fail file. *)
Lemma batch_item_invalid rule cc pw raw st w :
  strip raw <> [] ->
  strip raw ∉ existing_phrases st ->
  strip raw ∉ existing_fail_phrases st ->
  (if (rule =? 6)%Z then extract_chinese_chars (strip raw) = []
   else check_all_chars_exist (strip raw) cc = false) ->
  (try_write w).1 = IoOk ->
  exists st' w',
    batch_item lazy_pinyin rule cc pw raw st w = (Some st', w')
    /\ fail_file w' = fail_file w ++ [strip raw]
    /\ dict_file w' = dict_file w
    /\ fail_count st' = S (fail_count st).
Proof.
  intros Hne He Hf Hval Hio. unfold batch_item.
  change (existing_phrases (count_line st)) with (existing_phrases st).
  change (existing_fail_phrases (count_line st))
    with (existing_fail_phrases st).
  destruct (try_write_files w) as (Hd & _).
  destruct (strip raw) as [|c l] eqn:Hs; [contradiction|].
  destruct (decide (_ ∈ existing_phrases st)); [contradiction|].
  destruct (decide (_ ∈ existing_fail_phrases st)); [contradiction|].
  destruct (rule =? 6)%Z.
  - rewrite Hval, write_fail_ok by exact Hio.
    eexists _, _. split; [reflexivity|]. simpl. auto.
  - rewrite Hval. cbn [negb]. rewrite write_fail_ok by exact Hio.
    eexists _, _. split; [reflexivity|]. simpl. auto.
Qed.

(** An item of a batch that passes validation and whose dictionary line
    cannot be written goes to the fail file as well. *)
Lemma batch_item_write_error rule cc pw raw st w :
  strip raw <> [] ->
  strip raw ∉ existing_phrases st ->
  strip raw ∉ existing_fail_phrases st ->
  (if (rule =? 6)%Z then extract_chinese_chars (strip raw) <> []
   else check_all_chars_exist (strip raw) cc = true) ->
  (try_write w).1 = IoError ->
  (try_write (try_write w).2).1 = IoOk ->
  exists st' w',
    batch_item lazy_pinyin rule cc pw raw st w = (Some st', w')
    /\ fail_file w' = fail_file w ++ [strip raw]
    /\ dict_file w' = dict_file w
    /\ fail_count st' = S (fail_count st)
    /\ fail_records st' = fail_records st ++ [(strip raw, FailWriteError)].
Proof.
  intros Hne He Hf Hval Hio1 Hio2. unfold batch_item.
  change (existing_phrases (count_line st)) with (existing_phrases st).
  change (existing_fail_phrases (count_line st))
    with (existing_fail_phrases st).
  destruct (try_write_files w) as (Hd & Hfl & _).
  destruct (try_write_files (try_write w).2) as (Hd2 & _).
  assert (Hch : extract_chinese_chars (strip raw) <> []).
  { destruct (rule =? 6)%Z; [exact Hval|].
    apply (check_all_chars_exist_chinese _ cc), Hval. }
  destruct (generate_wubi_code_total lazy_pinyin _ cc rule Hch) as [code Hg].
  assert (Henc :
    match extract_chinese_chars (strip raw) with
    | [] => (Some (count_failed_unwritten (strip raw) FailNoChinese
                     (count_line st)), w)
    | _ :: _ =>
        match generate_wubi_code lazy_pinyin
                (extract_chinese_chars (strip raw)) cc rule with
        | Some code =>
            match try_write w with
            | (IoOk, w0) =>
                (Some (count_added (strip raw) code
                         (resolve_weight pw (strip raw)) (count_line st)),
                 set_dict_file
                   (dict_file w0 ++
                    [entry_line (strip raw) code
                       (resolve_weight pw (strip raw))]) w0)
            | (IoError, w0) =>
                let '(st0, w1) :=
                  write_fail (strip raw) FailWriteError (count_line st) w0 in
                (Some st0, w1)
            end
        | None => (None, w)
        end
    end
    = (Some (count_failed (strip raw) FailWriteError (count_line st)),
       set_fail_file (fail_file w ++ [strip raw])
         (try_write (try_write w).2).2)).
  { rewrite Hg.
    destruct (extract_chinese_chars (strip raw)); [contradiction|].
    destruct (try_write w) as [r w0]. simpl in Hio1, Hio2, Hfl |- *. subst r.
    rewrite write_fail_ok by exact Hio2. rewrite Hfl. reflexivity. }
  destruct (strip raw) as [|c l] eqn:Hs; [contradiction|].
  destruct (decide (_ ∈ existing_phrases st)); [contradiction|].
  destruct (decide (_ ∈ existing_fail_phrases st)); [contradiction|].
  destruct (rule =? 6)%Z.
  - destruct (extract_chinese_chars (c :: l)) eqn:Hx; [contradiction|].
    rewrite Henc. eexists _, _. split; [reflexivity|]. simpl.
    rewrite Hd2, Hd. auto.
  - rewrite Hval. cbn [negb].
    rewrite Henc. eexists _, _. split; [reflexivity|]. simpl.
    rewrite Hd2, Hd. auto.
Qed.

(** C2, amended: in a batch an item that fails validation (no Chinese
    character, or a Chinese character without a code) is appended to the fail
    file, and so is an item whose dictionary line cannot be written, as long
    as the fail file itself takes the line; the single-item path, the only
    one in which the user can cancel, never writes to the fail file. *)
Theorem fail_file_routing (rule : Z) (cc pw : gmap pystr pystr) :
  (forall raw st w,
     strip raw <> [] ->
     strip raw ∉ existing_phrases st ->
     strip raw ∉ existing_fail_phrases st ->
     (if (rule =? 6)%Z then extract_chinese_chars (strip raw) = []
      else check_all_chars_exist (strip raw) cc = false) ->
     (try_write w).1 = IoOk ->
     exists st' w',
       batch_item lazy_pinyin rule cc pw raw st w = (Some st', w')
       /\ fail_file w' = fail_file w ++ [strip raw]
       /\ dict_file w' = dict_file w
       /\ fail_count st' = S (fail_count st))
  /\ (forall raw st w,
     strip raw <> [] ->
     strip raw ∉ existing_phrases st ->
     strip raw ∉ existing_fail_phrases st ->
     (if (rule =? 6)%Z then extract_chinese_chars (strip raw) <> []
      else check_all_chars_exist (strip raw) cc = true) ->
     (try_write w).1 = IoError ->
     (try_write (try_write w).2).1 = IoOk ->
     exists st' w',
       batch_item lazy_pinyin rule cc pw raw st w = (Some st', w')
       /\ fail_file w' = fail_file w ++ [strip raw]
       /\ dict_file w' = dict_file w
       /\ fail_count st' = S (fail_count st)
       /\ fail_records st' = fail_records st ++ [(strip raw, FailWriteError)])
  /\ (forall phrase rule' existing w,
     fail_file (interactive_single_input lazy_pinyin phrase rule' cc pw
                  existing w).2
     = fail_file w).
Proof.
  split; [|split].
  - intros raw st w. apply batch_item_invalid.
  - intros raw st w. apply batch_item_write_error.
  - intros phrase rule' existing w. apply single_input_fail_file.
Qed.

(** What [interactive_single_input] does with a phrase that is not in the
    dictionary: it rejects it and writes nothing, or adds it and writes its
    line. *)
Lemma single_input_new phrase rule cc pw existing w o1 e1 w1 :
  phrase ∉ existing ->
  interactive_single_input lazy_pinyin phrase rule cc pw existing w
  = (o1, e1, w1) ->
  (exists r, o1 = Rejected r)
  \/ (exists code,
        o1 = Added code /\ e1 = {[phrase]} ∪ existing
        /\ dict_file w1
           = dict_file w ++ [entry_line phrase code (resolve_weight pw phrase)]).
Proof.
  intros Hnew. unfold interactive_single_input.
  destruct (decide (phrase ∈ existing)); [contradiction|].
  destruct (negb _ && negb _).
  { intros [= <- <- <-]. left. eexists. reflexivity. }
  assert (Hcode : forall (r : pystr + outcome) (w0 : World),
    dict_file w0 = dict_file w ->
    (match r with
     | inr o => (o, existing, w0)
     | inl code =>
         match try_write w0 with
         | (IoOk, w2) =>
             (Added code, {[phrase]} ∪ existing,
              set_dict_file
                (dict_file w2 ++
                 [entry_line phrase code (resolve_weight pw phrase)]) w2)
         | (IoError, w2) => (Rejected WriteError, existing, w2)
         end
     end) = (o1, e1, w1) ->
    (forall o, r = inr o -> exists x, o = Rejected x) ->
    (exists r, o1 = Rejected r)
    \/ (exists code,
          o1 = Added code /\ e1 = {[phrase]} ∪ existing
          /\ dict_file w1
             = dict_file w
               ++ [entry_line phrase code (resolve_weight pw phrase)])).
  { intros r w0 Hd Hr Hrej. destruct r as [code|o].
    - destruct (try_write_files w0) as (Hd2 & _).
      destruct (try_write w0) as [[] w2]; simpl in Hd2;
        injection Hr as <- <- <-.
      + right. exists code. simpl. rewrite Hd2, Hd. auto.
      + left. eexists. reflexivity.
    - injection Hr as <- <- <-. left. apply Hrej. reflexivity. }
  destruct (rule =? 5)%Z.
  - destruct (prompt_code (stdin w)) as [r rest] eqn:Hp.
    intros Hrun. apply (Hcode r (set_stdin rest w)); [reflexivity | exact Hrun |].
    intros o ->. apply (prompt_code_outcome (stdin w)). rewrite Hp.
    reflexivity.
  - assert (Henc : forall o,
      encode_chinese lazy_pinyin phrase rule cc = inr o ->
      exists x, o = Rejected x).
    { intros o Ho. apply encode_chinese_outcome in Ho. subst o.
      eexists. reflexivity. }
    destruct (rule =? 6)%Z; intros Hrun;
      apply (Hcode (encode_chinese lazy_pinyin phrase rule cc) w);
      auto.
Qed.




End WithPinyin.

(** C2, as stated, fails.  In a batch under rule 1, 打 has a code and passes
    validation, the append to the dictionary fails, and the phrase is
    written to the fail file and counted as failed.  On the single-item
    path the phrase [abc], which fails validation, reaches no fail file. *)
Lemma write_error_reaches_fail_file :
  check_all_chars_exist [Samples.da] Samples.table = true
  /\ file_batch_mode Samples.no_pinyin 1 Samples.table ∅
       (Some [[Samples.da]]) Samples.failing_world
     = (ExitProcessed, 0, 1,
        mkWorld [] [[Samples.da]] [(1%Z, 1, 0, 1, 0)] [] [])
  /\ interactive_single_input Samples.no_pinyin (str "abc") 1 Samples.table
       ∅ ∅ Samples.empty_world
     = (Rejected UncodeableChars, ∅, Samples.empty_world).
Proof. split; [|split]; reflexivity. Qed.

Lemma fail_file_routing_witness :
  (try_write Samples.failing_world).1 = IoError
  /\ (try_write (try_write Samples.failing_world).2).1 = IoOk
  /\ check_all_chars_exist (strip [Samples.da]) Samples.table = true
  /\ exists st' w',
       batch_item Samples.no_pinyin 1 Samples.table ∅ [Samples.da]
         (mkBatch ∅ ∅ 0 0 0 0 [] []) Samples.failing_world = (Some st', w')
       /\ fail_file w' = fail_file Samples.failing_world ++ [strip [Samples.da]].
Proof.
  assert (H1 : (try_write Samples.failing_world).1 = IoError) by reflexivity.
  assert (H2 : (try_write (try_write Samples.failing_world).2).1 = IoOk)
    by reflexivity.
  assert (H3 : check_all_chars_exist (strip [Samples.da]) Samples.table = true)
    by reflexivity.
  split; [exact H1 | split; [exact H2 | split; [exact H3 |]]].
  destruct (proj1 (proj2 (fail_file_routing Samples.no_pinyin 1
                            Samples.table ∅))
              [Samples.da] (mkBatch ∅ ∅ 0 0 0 0 [] []) Samples.failing_world)
    as (st' & w' & Hrun & Hfail & _).
  - vm_compute. discriminate.
  - apply not_elem_of_empty.
  - apply not_elem_of_empty.
  - exact H3.
  - exact H1.
  - exact H2.
  - exists st', w'. split; [exact Hrun | exact Hfail].
Defined.

Lemma no_chinese_reported_uncoded_witness :
  extract_chinese_chars (str "abc") = []
  /\ (str "abc" ∉ (∅ : gset pystr))
  /\ interactive_single_input Samples.no_pinyin (str "abc") 1 Samples.table
       ∅ ∅ Samples.empty_world
     = (Rejected UncodeableChars, ∅, Samples.empty_world).
Proof.
  assert (H1 : extract_chinese_chars (str "abc") = []) by reflexivity.
  assert (H2 : str "abc" ∉ (∅ : gset pystr)) by apply not_elem_of_empty.
  split; [exact H1 | split; [exact H2 |]].
  apply (no_chinese_reported_uncoded Samples.no_pinyin (str "abc") 1
           Samples.table ∅ ∅ Samples.empty_world H1 H2); discriminate.
Defined.

Lemma batch_rule5_rejected_witness :
  (1 <> 5)%Z
  /\ (file_batch_mode Samples.no_pinyin 1 Samples.table ∅
        (Some [[Samples.da]]) Samples.empty_world).1.1.1
     <> ExitRule5Unsupported.
Proof.
  assert (H : (1 <> 5)%Z) by discriminate.
  split; [exact H |].
  exact (proj2 (batch_rule5_rejected Samples.no_pinyin Samples.table ∅
                  (Some [[Samples.da]]) Samples.empty_world) 1%Z H).
Defined.



(** The two runs on 打 under rule 1, from an empty dictionary. *)
Example ingest_twice_da :
  interactive_single_input Samples.no_pinyin [Samples.da] 1 Samples.table
    ∅ ∅ Samples.empty_world
  = (Added (str "abcd"), {[ [Samples.da] ]} ∪ ∅,
     mkWorld [entry_line [Samples.da] (str "abcd") (str "100")] [] [] [] [])
  /\ interactive_single_input Samples.no_pinyin [Samples.da] 1 Samples.table
       ∅ ({[ [Samples.da] ]} ∪ ∅)
       (mkWorld [entry_line [Samples.da] (str "abcd") (str "100")] [] [] [] [])
     = (Skipped_AlreadyExists, {[ [Samples.da] ]} ∪ ∅,
        mkWorld [entry_line [Samples.da] (str "abcd") (str "100")] [] [] [] []).
Proof. split; reflexivity. Qed.

End PipelineSpec.

(** ** More on the encoding rules *)

Module RulesMore.

Lemma first_code_length char cc : length (get_first_code char cc) = 1.
Proof.
  unfold get_first_code. destruct (get cc char []) as [|c l]; reflexivity.
Qed.

Lemma take_exact {A} (l k : list A) n : length l = n -> take n (l ++ k) = l.
Proof.
  intros <-. rewrite take_app_le by lia. apply take_ge. lia.
Qed.

Lemma first_codes_length cs cc :
  length (concat (map (fun char => get_first_code char cc) cs)) = length cs.
Proof.
  induction cs as [|c cs IH]; [reflexivity|].
  cbn [List.map concat length]. rewrite length_app, first_code_length, IH.
  reflexivity.
Qed.

Lemma take4_first_codes a b c d (k : pystr) cc :
  take 4 (get_first_code a cc ++ get_first_code b cc ++ get_first_code c cc
          ++ get_first_code d cc ++ k)
  = get_first_code a cc ++ get_first_code b cc ++ get_first_code c cc
    ++ get_first_code d cc.
Proof.
  replace (get_first_code a cc ++ get_first_code b cc ++ get_first_code c cc
           ++ get_first_code d cc ++ k)
    with ((get_first_code a cc ++ get_first_code b cc ++ get_first_code c cc
           ++ get_first_code d cc) ++ k)
    by (rewrite <- !app_assoc; reflexivity).
  apply take_exact. rewrite !length_app, !first_code_length. reflexivity.
Qed.

(** With two characters or more, rule 3 is made of the first two codes of
    the first two characters alone. *)
Lemma rule3_two_codes a b rest cc :
  rule_first_two_chars_two_codes_rest_one (a :: b :: rest) cc
  = Some (get_first_two_codes [a] cc ++ get_first_two_codes [b] cc).
Proof.
  destruct rest as [|c rest].
  - unfold rule_first_two_chars_two_codes_rest_one. simpl. f_equal.
    rewrite lower_take, lower_app, !first_two_lower.
    apply take_ge. rewrite length_app, !first_two_length. lia.
  - destruct (rule3_total (a :: b :: c :: rest) cc) as [r Hr].
    rewrite Hr. f_equal.
    unfold rule_first_two_chars_two_codes_rest_one in Hr.
    cbn [length Nat.eqb Nat.leb] in Hr.
    change (item (a :: b :: c :: rest) 0) with (Some [a]) in Hr.
    change (item (a :: b :: c :: rest) 1) with (Some [b]) in Hr.
    cbn [mbind option_bind] in Hr.
    destruct (mapM _ _) as [codes|]; [|discriminate].
    cbn [mbind option_bind] in Hr. injection Hr as <-.
    cbn [app concat].
    rewrite lower_take, !lower_app, !first_two_lower, app_assoc.
    apply take_exact. rewrite length_app, !first_two_length. reflexivity.
Qed.

Lemma rule4_two_codes a b rest cc :
  rule_all_two_codes (a :: b :: rest) cc
  = get_first_two_codes [a] cc ++ get_first_two_codes [b] cc.
Proof.
  rewrite rule_all_two_codes_capped. unfold Reference.all_two_capped.
  cbn [chars List.map concat]. rewrite <- !app_assoc, app_assoc.
  apply take_exact. rewrite length_app, !first_two_length. reflexivity.
Qed.

(** X1: rule 1 raises [IndexError] on the empty phrase and on no other. *)
Theorem rule1_raises_iff_empty (phrase : pystr) (cc : gmap pystr pystr) :
  rule_standard_wubi phrase cc = None <-> phrase = [].
Proof.
  split.
  - intros H. destruct phrase as [|c l]; [reflexivity|].
    destruct (rule_standard_wubi_total (c :: l) cc) as [r Hr];
      [discriminate | congruence].
  - intros ->. reflexivity.
Qed.

(** X2: the generator raises exactly when the phrase is empty and the rule
    id is none of 2, 3, 4, 5: on the empty phrase rules 2, 3 and 5 give the
    empty code and rule 4 gives [xxxx]. *)
Theorem generate_raises_iff (lazy_pinyin : pystr -> option (list pystr))
    (phrase : pystr) (cc : gmap pystr pystr) (rule : Z) :
  (generate_wubi_code lazy_pinyin phrase cc rule = None
   <-> phrase = [] /\ (rule < 2 \/ 5 < rule)%Z)
  /\ generate_wubi_code lazy_pinyin [] cc 2 = Some []
  /\ generate_wubi_code lazy_pinyin [] cc 3 = Some []
  /\ generate_wubi_code lazy_pinyin [] cc 4 = Some (str "xxxx")
  /\ generate_wubi_code lazy_pinyin [] cc 5 = Some [].
Proof.
  split; [|repeat split; reflexivity].
  split.
  - intros H. destruct phrase as [|c l].
    + split; [reflexivity|].
      destruct (Z.ltb_spec rule 2) as [|H2]; [left; assumption|].
      destruct (Z.ltb_spec 5 rule) as [|H5]; [right; assumption|].
      exfalso.
      assert (rule = 2 \/ rule = 3 \/ rule = 4 \/ rule = 5)%Z
        as [-> | [-> | [-> | ->]]] by lia; discriminate.
    + destruct (generate_wubi_code_total lazy_pinyin (c :: l) cc rule)
        as [r Hr]; [discriminate | congruence].
  - intros [-> Hr]. unfold generate_wubi_code.
    destruct (Z.eqb_spec rule 1); [reflexivity|].
    destruct (Z.eqb_spec rule 2); [lia|].
    destruct (Z.eqb_spec rule 3); [lia|].
    destruct (Z.eqb_spec rule 4); [lia|].
    destruct (Z.eqb_spec rule 5); [lia|].
    destruct (Z.eqb_spec rule 6); reflexivity.
Qed.

(** X3: with a table of ASCII codes, on a phrase of two characters or more,
    rules 1, 2 and 3 return a code of exactly four characters. *)
Theorem rules_length_four (phrase : pystr) (cc : gmap pystr pystr) :
  Reference.ascii_codes cc = true ->
  2 <= length phrase ->
  (exists r, rule_standard_wubi phrase cc = Some r /\ length r = 4)
  /\ (exists r, rule_one_code_per_char phrase cc = Some r /\ length r = 4)
  /\ (exists r, rule_first_two_chars_two_codes_rest_one phrase cc = Some r
                /\ length r = 4).
Proof.
  intros _ Hlen.
  destruct phrase as [|a [|b rest]]; [simpl in Hlen; lia..|].
  split; [|split].
  - destruct rest as [|c [|d [|e rest]]].
    + eexists. split; [reflexivity|].
      rewrite lower_length, length_take, length_app, !first_two_length.
      reflexivity.
    + eexists. split; [reflexivity|].
      rewrite lower_length, length_take, !length_app, !first_code_length,
        first_two_length. reflexivity.
    + eexists. split; [reflexivity|].
      rewrite lower_length, length_take, first_codes_length. reflexivity.
    + destruct (rule_standard_wubi_total (a :: b :: c :: d :: e :: rest) cc)
        as [r Hr]; [discriminate|].
      exists r. split; [exact Hr|].
      unfold rule_standard_wubi in Hr. cbn [length Nat.eqb] in Hr.
      change (item (a :: b :: c :: d :: e :: rest) 0) with (Some [a]) in Hr.
      change (item (a :: b :: c :: d :: e :: rest) 1) with (Some [b]) in Hr.
      change (item (a :: b :: c :: d :: e :: rest) 2) with (Some [c]) in Hr.
      cbn [mbind option_bind] in Hr.
      destruct (item _ _) as [l|]; [|discriminate].
      cbn [mbind option_bind] in Hr. injection Hr as <-.
      rewrite lower_length, length_take, !length_app, !first_code_length.
      reflexivity.
  - destruct rest as [|c [|d rest]].
    + eexists. split; [reflexivity|].
      rewrite lower_length, length_take, length_app, !first_two_length.
      reflexivity.
    + eexists. split; [reflexivity|].
      rewrite lower_length, length_take, !length_app, !first_code_length,
        first_two_length. reflexivity.
    + eexists. split; [reflexivity|].
      rewrite lower_length, length_take, first_codes_length.
      unfold chars. rewrite length_map. simpl. lia.
  - eexists. split; [apply rule3_two_codes|].
    rewrite length_app, !first_two_length. reflexivity.
Qed.

Lemma rules_length_four_witness :
  Reference.ascii_codes Samples.table = true
  /\ 2 <= length [Samples.da; Samples.zi; Samples.yi]
  /\ exists r, rule_standard_wubi [Samples.da; Samples.zi; Samples.yi]
                 Samples.table = Some r /\ length r = 4.
Proof.
  assert (H0 : Reference.ascii_codes Samples.table = true)
    by (vm_compute; reflexivity).
  assert (H : 2 <= length [Samples.da; Samples.zi; Samples.yi])
    by (simpl; lia).
  split; [exact H0 | split; [exact H|]].
  exact (proj1 (rules_length_four _ Samples.table H0 H)).
Defined.

(** X4: rule 2 is rule 1 on the phrases of one to four characters; on a
    longer phrase rule 2 keeps reading the first four characters, where
    rule 1 reads the first three and the last. *)
Theorem rule2_versus_rule1 (phrase : pystr) (cc : gmap pystr pystr) :
  (1 <= length phrase <= 4 ->
   rule_one_code_per_char phrase cc = rule_standard_wubi phrase cc)
  /\ (4 <= length phrase ->
      rule_one_code_per_char phrase cc
      = rule_standard_wubi (take 4 phrase) cc).
Proof.
  split.
  - intros [H1 H4].
    destruct phrase as [|a [|b [|c [|d [|e rest]]]]];
      try reflexivity; simpl in H1, H4; lia.
  - intros H4.
    destruct phrase as [|a [|b [|c [|d rest]]]]; [simpl in H4; lia..|].
    unfold rule_one_code_per_char, rule_standard_wubi.
    change (take 4 (a :: b :: c :: d :: rest)) with [a; b; c; d].
    destruct rest as [|e rest]; [reflexivity|].
    cbn [length Nat.eqb chars List.map concat]. f_equal. f_equal.
    rewrite !take4_first_codes. reflexivity.
Qed.

Lemma rule2_versus_rule1_witness :
  4 <= length [Samples.da; Samples.zi; Samples.yi; Samples.da; Samples.zi]
  /\ rule_one_code_per_char
       [Samples.da; Samples.zi; Samples.yi; Samples.da; Samples.zi]
       Samples.table
     = rule_standard_wubi
         (take 4 [Samples.da; Samples.zi; Samples.yi; Samples.da; Samples.zi])
         Samples.table.
Proof.
  assert (H : 4 <= length [Samples.da; Samples.zi; Samples.yi; Samples.da;
                           Samples.zi]) by (simpl; lia).
  split; [exact H|].
  exact (proj2 (rule2_versus_rule1 _ Samples.table) H).
Defined.

(** X5: with a table of ASCII codes and two characters or more, rules 3 and
    4 both return the first two codes of the first character followed by the
    first two codes of the second, which is what rule 1 returns for these
    two characters alone: no later character takes part in the code. *)
Theorem rules_3_4_first_two_chars (a b : N) (rest : pystr)
    (cc : gmap pystr pystr) :
  Reference.ascii_codes cc = true ->
  rule_first_two_chars_two_codes_rest_one (a :: b :: rest) cc
  = Some (get_first_two_codes [a] cc ++ get_first_two_codes [b] cc)
  /\ rule_all_two_codes (a :: b :: rest) cc
     = get_first_two_codes [a] cc ++ get_first_two_codes [b] cc
  /\ rule_first_two_chars_two_codes_rest_one (a :: b :: rest) cc
     = rule_standard_wubi [a; b] cc.
Proof.
  intros _.
  split; [apply rule3_two_codes|]. split; [apply rule4_two_codes|].
  rewrite rule3_two_codes. unfold rule_standard_wubi. simpl. f_equal.
  rewrite lower_take, lower_app, !first_two_lower. symmetry.
  apply take_ge. rewrite length_app, !first_two_length. lia.
Qed.

Lemma rules_3_4_first_two_chars_witness :
  Reference.ascii_codes Samples.table = true
  /\ rule_all_two_codes [Samples.da; Samples.zi; Samples.yi] Samples.table
     = get_first_two_codes [Samples.da] Samples.table
       ++ get_first_two_codes [Samples.zi] Samples.table.
Proof.
  assert (H0 : Reference.ascii_codes Samples.table = true)
    by (vm_compute; reflexivity).
  split; [exact H0|].
  exact (proj1 (proj2 (rules_3_4_first_two_chars Samples.da Samples.zi
                         [Samples.yi] Samples.table H0))).
Defined.

(** X6: rule 6 returns the code of rule 1 followed by the initials that
    [pypinyin] gives for the Chinese characters of the phrase, in lower
    case; without [pypinyin], or for a phrase without Chinese characters, it
    returns the code of rule 1 alone. *)
Theorem rule6_extends_rule1 (lazy_pinyin : pystr -> option (list pystr))
    (phrase : pystr) (cc : gmap pystr pystr) :
  rule_wubi_pinyin_initials lazy_pinyin phrase cc
  = (code ← rule_standard_wubi phrase cc;
     Some (code ++ get_pinyin_initials lazy_pinyin phrase))
  /\ (lazy_pinyin (extract_chinese_chars phrase) = None ->
      rule_wubi_pinyin_initials lazy_pinyin phrase cc
      = rule_standard_wubi phrase cc)
  /\ (extract_chinese_chars phrase = [] ->
      rule_wubi_pinyin_initials lazy_pinyin phrase cc
      = rule_standard_wubi phrase cc).
Proof.
  assert (H : rule_wubi_pinyin_initials lazy_pinyin phrase cc
              = (code ← rule_standard_wubi phrase cc;
                 Some (code ++ get_pinyin_initials lazy_pinyin phrase))).
  { unfold rule_wubi_pinyin_initials.
    destruct (rule_standard_wubi phrase cc) as [code|]; [|reflexivity].
    cbn [mbind option_bind].
    destruct (get_pinyin_initials lazy_pinyin phrase);
      [rewrite app_nil_r|]; reflexivity. }
  split; [exact H|]. split.
  - intros Hp. rewrite H. unfold get_pinyin_initials. rewrite Hp.
    destruct (rule_standard_wubi phrase cc); [|reflexivity].
    cbn [mbind option_bind].
    destruct (extract_chinese_chars phrase); rewrite app_nil_r; reflexivity.
  - intros Hp. rewrite H. unfold get_pinyin_initials. rewrite Hp.
    destruct (rule_standard_wubi phrase cc); [|reflexivity].
    cbn [mbind option_bind]. rewrite app_nil_r. reflexivity.
Qed.

Lemma rule6_extends_rule1_witness :
  Samples.no_pinyin (extract_chinese_chars [Samples.da; Samples.zi]) = None
  /\ rule_wubi_pinyin_initials Samples.no_pinyin [Samples.da; Samples.zi]
       Samples.table
     = rule_standard_wubi [Samples.da; Samples.zi] Samples.table.
Proof.
  assert (H : Samples.no_pinyin (extract_chinese_chars [Samples.da; Samples.zi])
              = None) by reflexivity.
  split; [exact H|].
  exact (proj1 (proj2 (rule6_extends_rule1 Samples.no_pinyin
                         [Samples.da; Samples.zi] Samples.table)) H).
Defined.

End RulesMore.

(** ** More on [strip] *)

Module StripFacts.

Lemma lstrip_nonspace s c l : lstrip s = c :: l -> is_space c = false.
Proof.
  induction s as [|d s IH]; [discriminate|].
  simpl. destruct (is_space d) eqn:Hd; [exact IH|].
  intros [= <- <-]. exact Hd.
Qed.

Lemma lstrip_idemp s : lstrip (lstrip s) = lstrip s.
Proof.
  destruct (lstrip s) as [|c l] eqn:E; [reflexivity|].
  apply lstrip_head, (lstrip_nonspace s c l E).
Qed.

Lemma lstrip_nil_app x y : lstrip x = [] -> lstrip (x ++ y) = lstrip y.
Proof.
  induction x as [|c x IH]; [reflexivity|].
  simpl. destruct (is_space c); [exact IH | discriminate].
Qed.

Lemma rstrip_cons c t : is_space c = false -> rstrip (c :: t) = c :: rstrip t.
Proof.
  intros Hc. unfold rstrip. cbn [rev].
  destruct (lstrip (rev t)) as [|d l] eqn:E.
  - rewrite lstrip_nil_app by exact E. rewrite lstrip_head by exact Hc.
    reflexivity.
  - rewrite lstrip_app by (rewrite E; discriminate).
    rewrite E, rev_app_distr. reflexivity.
Qed.

Lemma rstrip_idemp s : rstrip (rstrip s) = rstrip s.
Proof.
  unfold rstrip. rewrite rev_involutive, lstrip_idemp. reflexivity.
Qed.

(** What [strip] returns starts with no white space. *)
Lemma strip_head s c l : strip s = c :: l -> is_space c = false.
Proof.
  unfold strip. destruct (lstrip s) as [|d t] eqn:E.
  - discriminate.
  - pose proof (lstrip_nonspace s d t E) as Hd.
    rewrite rstrip_cons by exact Hd. intros [= <- _]. exact Hd.
Qed.

Lemma strip_idemp s : strip (strip s) = strip s.
Proof.
  unfold strip at 1.
  destruct (strip s) as [|c l] eqn:E; [reflexivity|].
  rewrite lstrip_head by exact (strip_head s c l E).
  rewrite <- E. unfold strip. apply rstrip_idemp.
Qed.

(** The first field of a stripped line that is not empty is not empty. *)
Lemma split_on_first_field s c l :
  strip s = c :: l ->
  exists f fs, split_on TAB (c :: l) = (c :: f) :: fs.
Proof.
  intros E. pose proof (strip_head s c l E) as Hc.
  cbn [split_on].
  destruct (N.eqb_spec c TAB) as [->|_]; [discriminate Hc|].
  destruct (split_on TAB l) as [|f fs]; eexists _, _; reflexivity.
Qed.

End StripFacts.

Import StripFacts.

(** ** The code table *)

Module CodeTableSpec.

Import CodeTable.

Lemma code_fields_shape line char code :
  code_fields line = Some (char, code) -> lower code = code /\ char <> [].
Proof.
  unfold code_fields.
  destruct (strip line) as [|c l] eqn:E; [discriminate|].
  destruct (split_on_first_field line c l E) as (f & fs & ->).
  destruct fs as [|code' fs']; [discriminate|].
  cbn [length Nat.leb]. intros [= <- <-].
  split; [apply lower_idemp | discriminate].
Qed.

Lemma read_code_lines_inv (P : pystr -> pystr -> Prop) lines : forall cc,
  (forall line k v, code_fields line = Some (k, v) -> P k v) ->
  (forall k v, cc !! k = Some v -> P k v) ->
  forall k v, read_code_lines cc lines !! k = Some v -> P k v.
Proof.
  induction lines as [|line rest IH]; intros cc Hline Hcc k v; [apply Hcc|].
  cbn [read_code_lines].
  destruct (code_fields line) as [[char code]|] eqn:E.
  - apply IH; [exact Hline|].
    intros k' v'. rewrite lookup_insert.
    case_decide; [intros [= <-]; subst; apply (Hline line), E | apply Hcc].
  - apply IH; assumption.
Qed.

Lemma read_code_lines_app l1 l2 : forall cc,
  read_code_lines cc (l1 ++ l2) = read_code_lines (read_code_lines cc l1) l2.
Proof.
  induction l1 as [|line rest IH]; intros cc; [reflexivity|].
  cbn [app read_code_lines].
  destruct (code_fields line) as [[char code]|]; apply IH.
Qed.

(** X7: every code of a table read by [read_single_char_codes] is in lower
    case and sits under a key that is not empty; so the first code of a
    character, which [get_first_code] takes from the table as it is, is in
    lower case for such a table. *)
Theorem loaded_codes_lower (file : option (list pystr)) (char : pystr) :
  (forall code, read_single_char_codes file !! char = Some code ->
     lower code = code /\ char <> [])
  /\ lower (get_first_code char (read_single_char_codes file))
     = get_first_code char (read_single_char_codes file).
Proof.
  assert (H : forall code, read_single_char_codes file !! char = Some code ->
                lower code = code /\ char <> []).
  { intros code. destruct file as [lines|]; cbn [read_single_char_codes];
      [|rewrite lookup_empty; discriminate].
    apply (read_code_lines_inv (fun k v => lower v = v /\ k <> [])).
    - intros line k v. apply code_fields_shape.
    - intros k v. rewrite lookup_empty. discriminate. }
  split; [exact H|].
  unfold get_first_code, get.
  destruct (read_single_char_codes file !! char) as [code|] eqn:E;
    [|reflexivity].
  destruct (H code eq_refl) as [Hl _]. cbn [default from_option id].
  destruct code as [|c l]; [reflexivity|].
  rewrite lower_take, Hl. reflexivity.
Qed.

Lemma loaded_codes_lower_witness :
  read_single_char_codes
    (Some [[Samples.da] ++ [TAB] ++ str "ABcd" ++ [NEWLINE]]) !! [Samples.da]
  = Some (str "abcd")
  /\ lower (str "abcd") = str "abcd".
Proof.
  assert (H : read_single_char_codes
                (Some [[Samples.da] ++ [TAB] ++ str "ABcd" ++ [NEWLINE]])
              !! [Samples.da] = Some (str "abcd")) by reflexivity.
  split; [exact H|].
  exact (proj1 (proj1 (loaded_codes_lower _ _) _ H)).
Defined.

(** X8: in the code table a later line replaces an earlier one: after a line
    with a character and a code, the table gives that code (in lower case)
    for the character, whatever the lines before it said. *)
Theorem code_table_last_line_wins (lines : list pystr) (line char code : pystr) :
  code_fields line = Some (char, code) ->
  read_single_char_codes (Some (lines ++ [line])) !! char = Some code.
Proof.
  intros E. cbn [read_single_char_codes].
  rewrite read_code_lines_app. cbn [read_code_lines]. rewrite E.
  apply lookup_insert_eq.
Qed.

Lemma code_table_last_line_wins_witness :
  code_fields ([Samples.da] ++ [TAB] ++ str "WXyz")
  = Some ([Samples.da], str "wxyz")
  /\ read_single_char_codes
       (Some ([[Samples.da] ++ [TAB] ++ str "abcd"]
              ++ [[Samples.da] ++ [TAB] ++ str "WXyz"])) !! [Samples.da]
     = Some (str "wxyz").
Proof.
  assert (H : code_fields ([Samples.da] ++ [TAB] ++ str "WXyz")
              = Some ([Samples.da], str "wxyz")) by reflexivity.
  split; [exact H|].
  exact (code_table_last_line_wins [[Samples.da] ++ [TAB] ++ str "abcd"]
           _ _ _ H).
Defined.

(** X9: [check_all_chars_exist] accepts a phrase exactly when the phrase has
    a Chinese character and each of its Chinese characters is a key of the
    table; the other characters of the phrase play no part, so the phrase
    and its Chinese characters alone get the same answer. *)
Theorem check_all_chars_exist_iff (phrase : pystr) (cc : gmap pystr pystr) :
  (check_all_chars_exist phrase cc = true
   <-> extract_chinese_chars phrase <> []
       /\ forall c, c ∈ phrase -> is_chinese c = true -> is_Some (cc !! [c]))
  /\ check_all_chars_exist (extract_chinese_chars phrase) cc
     = check_all_chars_exist phrase cc.
Proof.
  split.
  - unfold check_all_chars_exist.
    assert (Hall : forallb (fun char => bool_decide (is_Some (cc !! char)))
                     (chars (extract_chinese_chars phrase)) = true
                   <-> forall c, c ∈ phrase -> is_chinese c = true ->
                         is_Some (cc !! [c])).
    { rewrite forallb_forall. unfold chars, extract_chinese_chars. split.
      - intros H c Hc Hch.
        apply (bool_decide_eq_true_1 (is_Some (cc !! [c]))). apply H.
        apply in_map_iff. exists c. split; [reflexivity|].
        apply filter_In. split; [apply list_elem_of_In, Hc | exact Hch].
      - intros H char Hin. apply in_map_iff in Hin as (c & <- & Hc).
        apply filter_In in Hc as [Hc Hch].
        apply bool_decide_eq_true_2.
        apply H; [apply list_elem_of_In, Hc | exact Hch]. }
    destruct (extract_chinese_chars phrase) as [|c l] eqn:E.
    + split; [discriminate | intros [H _]; contradiction].
    + rewrite Hall. split; [intros H; split; [discriminate | exact H] | tauto].
  - unfold check_all_chars_exist, extract_chinese_chars.
    assert (Hf : List.filter is_chinese (List.filter is_chinese phrase)
                 = List.filter is_chinese phrase).
    { induction phrase as [|c l IH]; [reflexivity|].
      simpl. destruct (is_chinese c) eqn:Hc; [|exact IH].
      simpl. rewrite Hc, IH. reflexivity. }
    rewrite Hf. reflexivity.
Qed.

End CodeTableSpec.

(** ** More on the weight table *)

Module WeightsMore.

Lemma read_line_within pw line :
  Reference.within_int_limit line = true -> is_Some (read_line pw line).
Proof.
  intros Hl. unfold read_line.
  destruct (weight_fields line) as [[p w]|] eqn:Hf; [|eexists; reflexivity].
  destruct (merge_weight_lookup pw p w) as (pw' & -> & _);
    [|eexists; reflexivity].
  assert (Hall : Forall (fun line => Reference.within_int_limit line = true)
                        [line]) by (repeat constructor; exact Hl).
  apply (limit_lines [line] Hall line p w); [left; reflexivity | exact Hf].
Qed.

Lemma read_line_beyond pw line :
  Reference.within_int_limit line = false -> read_line pw line = None.
Proof.
  unfold Reference.within_int_limit, read_line. intros Hl.
  destruct (weight_fields line) as [[p w]|]; [|discriminate].
  apply orb_false_iff in Hl as [Hw Hlen].
  apply negb_false_iff in Hw. apply Nat.leb_gt in Hlen.
  unfold merge_weight. rewrite Hw. cbn [negb].
  rewrite (py_int_over w Hw) by exact Hlen. reflexivity.
Qed.

Lemma read_lines_app l1 : forall pw l2,
  Forall (fun line => Reference.within_int_limit line = true) l1 ->
  read_lines pw (l1 ++ l2) = read_lines (read_lines pw l1) l2.
Proof.
  induction l1 as [|line rest IH]; intros pw l2 Hall; [reflexivity|].
  inversion Hall as [|? ? Hl Hrest]; subst.
  cbn [app read_lines].
  destruct (read_line_within pw line Hl) as [pw' ->]. apply IH, Hrest.
Qed.

Lemma merge_at_some e ws :
  is_Some (foldl Reference.merge_at (Some e) ws).
Proof.
  revert e. induction ws as [|w ws IH]; intros e; [eexists; reflexivity|].
  cbn [foldl].
  assert (Hstep : Reference.merge_at (Some e) w = Some e
                  \/ Reference.merge_at (Some e) w = Some w).
  { unfold Reference.merge_at.
    destruct (py_int e); [destruct (_ <? _)%Z|]; auto. }
  destruct Hstep as [-> | ->]; apply IH.
Qed.

(** X10: the loader of the weight table works line by line, and stops at
    the first line whose numeric weight field has more digits than [int()]
    converts.  As long as the first part of a table has no such line,
    loading the table is loading its first part and then the lines that
    follow on top of it; a line with such a field ends the load: what was
    read before it is returned and the lines after it are never read. *)
Theorem weights_load_app (l1 l2 : list pystr) :
  Forall (fun line => Reference.within_int_limit line = true) l1 ->
  read_phrase_weights (Some (l1 ++ l2))
  = read_lines (read_phrase_weights (Some l1)) l2
  /\ forall line, Reference.within_int_limit line = false ->
       read_phrase_weights (Some (l1 ++ line :: l2))
       = read_phrase_weights (Some l1).
Proof.
  intros Hall. cbn [read_phrase_weights]. split.
  - apply read_lines_app, Hall.
  - intros line Hline. rewrite read_lines_app by exact Hall.
    cbn [read_lines]. rewrite read_line_beyond by exact Hline. reflexivity.
Qed.

Lemma weights_load_app_witness :
  Forall (fun line => Reference.within_int_limit line = true)
    [Samples.weight_line [Samples.da] (str "5")]
  /\ read_phrase_weights
       (Some ([Samples.weight_line [Samples.da] (str "5")]
              ++ [Samples.weight_line [Samples.da] (str "9")]))
     = read_lines
         (read_phrase_weights (Some [Samples.weight_line [Samples.da] (str "5")]))
         [Samples.weight_line [Samples.da] (str "9")].
Proof.
  assert (H : Forall (fun line => Reference.within_int_limit line = true)
                [Samples.weight_line [Samples.da] (str "5")])
    by (repeat constructor).
  split; [exact H|].
  exact (proj1 (weights_load_app _ _ H)).
Defined.

(** The second half of X10 on a table: a weight of 4301 digits for 字 ends
    the load, and the weight of 打 on the next line is never stored. *)
Example weights_load_stops :
  read_phrase_weights
    (Some [Samples.weight_line [Samples.zi] (replicate 4301 49%N);
           Samples.weight_line [Samples.da] (str "9")])
  = ∅.
Proof. vm_compute. reflexivity. Qed.

(** X11: in a table none of whose numeric weight fields has more than 4300
    digits, the load holds a weight for a phrase exactly when one of the
    lines names the phrase (with a weight field, numeric or not). *)
Theorem weight_stored_iff_named (lines : list pystr) (phrase : pystr) :
  Forall (fun line => Reference.within_int_limit line = true) lines ->
  (read_phrase_weights (Some lines) !! phrase = None
   <-> observed phrase lines = []).
Proof.
  intros Hall. cbn [read_phrase_weights].
  rewrite read_lines_lookup by (apply limit_lines, Hall).
  rewrite lookup_empty.
  destruct (observed phrase lines) as [|w ws].
  - split; reflexivity.
  - cbn [foldl]. change (Reference.merge_at None w) with (Some w).
    destruct (merge_at_some w ws) as [r ->].
    split; discriminate.
Qed.

(** X12: whatever the weight table holds, the weight written with an entry
    matches [^\d+$]: it is the stored weight of the phrase when that
    matches [^\d+$], and the default 100 when the phrase has no stored
    weight or one that does not match. *)
Theorem resolved_weight_numeral (pw : gmap pystr pystr) (phrase : pystr) :
  is_number (resolve_weight pw phrase) = true
  /\ (pw !! phrase = None -> resolve_weight pw phrase = str "100")
  /\ (forall w, pw !! phrase = Some w ->
        resolve_weight pw phrase = if is_number w then w else str "100").
Proof.
  split; [apply resolve_weight_number|].
  unfold resolve_weight, get. split.
  - intros ->. reflexivity.
  - intros w ->. cbn [default from_option id].
    destruct (is_number w); reflexivity.
Qed.

Lemma resolved_weight_numeral_witness :
  (<[ [Samples.da] := str "abc" ]> (∅ : gmap pystr pystr)) !! [Samples.da]
  = Some (str "abc")
  /\ resolve_weight (<[ [Samples.da] := str "abc" ]> ∅) [Samples.da]
     = str "100".
Proof.
  assert (H : (<[ [Samples.da] := str "abc" ]> (∅ : gmap pystr pystr))
              !! [Samples.da] = Some (str "abc")) by reflexivity.
  split; [exact H|].
  exact (proj2 (proj2 (resolved_weight_numeral _ _)) _ H).
Defined.

End WeightsMore.

(** ** More on the ingestion paths *)

Module BatchFacts.

Import BatchView.

Lemma batch_effect_refl st w : batch_effect st w st w [] [] [].
Proof.
  unfold batch_effect. cbn [length map app].
  rewrite !app_nil_r, !Nat.add_0_r.
  split_and!; try reflexivity; try lia.
  - cbn [list_to_set]. rewrite (left_id_L ∅ (∪)). reflexivity.
  - cbn [list_to_set]. rewrite (left_id_L ∅ (∪)). reflexivity.
  - constructor.
  - intros p Hp. inversion Hp.
  - constructor.
Qed.

Lemma union_shuffle (A B S : gset pystr) : B ∪ (A ∪ S) = (A ∪ B) ∪ S.
Proof.
  rewrite (assoc_L (∪) B A S), (comm_L (∪) B A). reflexivity.
Qed.

(** A line that is skipped, blank, or lost with a fail file that refuses
    it. *)
Lemma batch_effect_skip st w st' w1 raw :
  success_records st' = success_records st ->
  fail_records st' = fail_records st ->
  added_count st' = added_count st ->
  fail_count st' = fail_count st ->
  total_lines st' = S (total_lines st) ->
  skipped_count st <= skipped_count st' <= S (skipped_count st) ->
  existing_phrases st' = existing_phrases st ->
  existing_fail_phrases st' = existing_fail_phrases st ->
  dict_file w1 = dict_file w -> fail_file w1 = fail_file w ->
  record_files w1 = record_files w ->
  batch_effect st w st' w1 [raw] [] [].
Proof.
  intros H1 H2 H3 H4 H5 H6 H7 H8 Hd Hf Hr. unfold batch_effect.
  cbn [length map app].
  rewrite !app_nil_r, !Nat.add_0_r, H1, H2, H3, H4, H5, H7, H8, Hd, Hf, Hr.
  split_and!; try reflexivity; try lia.
  - cbn [list_to_set]. rewrite (left_id_L ∅ (∪)). reflexivity.
  - cbn [list_to_set]. rewrite (left_id_L ∅ (∪)). reflexivity.
  - constructor.
  - intros p Hp. inversion Hp.
  - constructor.
Qed.

Lemma strip_cons_fixed raw c l : strip raw = c :: l -> strip (c :: l) = c :: l.
Proof. intros <-. apply strip_idemp. Qed.

(** A line written to the fail file. *)
Lemma batch_effect_failed st w w1 raw line reason :
  line = strip raw ->
  line <> [] -> strip line = line ->
  line ∉ existing_phrases st -> line ∉ existing_fail_phrases st ->
  dict_file w1 = dict_file w -> fail_file w1 = fail_file w ->
  record_files w1 = record_files w ->
  batch_effect st w (count_failed line reason (count_line st))
    (set_fail_file (fail_file w1 ++ [line]) w1) [raw] [] [(line, reason)].
Proof.
  intros Hraw Hne Hs He Hf Hd Hfl Hr. unfold batch_effect.
  cbn [count_failed count_line set_fail_file success_records fail_records
       dict_file fail_file record_files added_count fail_count total_lines
       skipped_count existing_phrases existing_fail_phrases length map app fst].
  rewrite !app_nil_r, Hd, Hfl, Hr.
  split_and!; try reflexivity; try lia.
  - cbn [list_to_set]. rewrite (left_id_L ∅ (∪)). reflexivity.
  - cbn [list_to_set]. rewrite (right_id_L ∅ (∪)). reflexivity.
  - apply NoDup_singleton.
  - intros p Hp. apply list_elem_of_singleton in Hp. subst p.
    split_and!; try assumption. exists raw. split; [left; reflexivity|].
    exact Hraw.
  - constructor.
Qed.

(** A line added to the dictionary. *)
Lemma batch_effect_added st w w1 raw line code weight :
  line = strip raw -> is_number weight = true ->
  line <> [] -> strip line = line ->
  line ∉ existing_phrases st -> line ∉ existing_fail_phrases st ->
  dict_file w1 = dict_file w -> fail_file w1 = fail_file w ->
  record_files w1 = record_files w ->
  batch_effect st w (count_added line code weight (count_line st))
    (set_dict_file (dict_file w1 ++ [entry_line line code weight]) w1) [raw]
    [(line, code, weight)] [].
Proof.
  intros Hraw Hnum Hne Hs He Hf Hd Hfl Hr. unfold batch_effect.
  cbn [count_added count_line set_dict_file success_records fail_records
       dict_file fail_file record_files added_count fail_count total_lines
       skipped_count existing_phrases existing_fail_phrases length map app fst].
  rewrite !app_nil_r, Hd, Hfl, Hr.
  split_and!; try reflexivity; try lia.
  - cbn [list_to_set]. rewrite (right_id_L ∅ (∪)). reflexivity.
  - cbn [list_to_set]. rewrite (left_id_L ∅ (∪)). reflexivity.
  - apply NoDup_singleton.
  - intros p Hp. apply list_elem_of_singleton in Hp. subst p.
    split_and!; try assumption. exists raw. split; [left; reflexivity|].
    exact Hraw.
  - constructor; [exact Hnum | constructor].
Qed.

Lemma batch_effect_trans st w st1 w1 st2 w2 n1 n2 a1 a2 f1 f2 :
  batch_effect st w st1 w1 n1 a1 f1 ->
  batch_effect st1 w1 st2 w2 n2 a2 f2 ->
  batch_effect st w st2 w2 (n1 ++ n2) (a1 ++ a2) (f1 ++ f2).
Proof.
  unfold batch_effect.
  intros (S1 & F1 & D1 & L1 & R1 & A1 & C1 & T1 & K1 & B1 & E1 & G1 & N1 & P1
          & Q1)
         (S2 & F2 & D2 & L2 & R2 & A2 & C2 & T2 & K2 & B2 & E2 & G2 & N2 & P2
          & Q2).
  rewrite !map_app, !length_app.
  split_and!.
  - rewrite S2, S1, app_assoc. reflexivity.
  - rewrite F2, F1, app_assoc. reflexivity.
  - rewrite D2, D1, app_assoc. reflexivity.
  - rewrite L2, L1, app_assoc. reflexivity.
  - rewrite R2, R1. reflexivity.
  - lia.
  - lia.
  - lia.
  - lia.
  - lia.
  - rewrite E2, E1, list_to_set_app_L. apply union_shuffle.
  - rewrite G2, G1, list_to_set_app_L. apply union_shuffle.
  - assert (Hperm : Permutation
        ((map record_phrase a1 ++ map record_phrase a2)
         ++ map fst f1 ++ map fst f2)
        ((map record_phrase a1 ++ map fst f1)
         ++ map record_phrase a2 ++ map fst f2)).
    { rewrite <- !app_assoc. apply Permutation_app_head.
      rewrite !app_assoc. apply Permutation_app_tail.
      apply Permutation_app_comm. }
    rewrite Hperm. apply NoDup_app. split; [exact N1|]. split; [|exact N2].
    intros p Hp1 Hp2. destruct (P2 p Hp2) as (_ & _ & He & Hf & _).
    apply elem_of_app in Hp1 as [Hp1|Hp1].
    + apply He. rewrite E1. apply elem_of_union_l, elem_of_list_to_set, Hp1.
    + apply Hf. rewrite G1. apply elem_of_union_l, elem_of_list_to_set, Hp1.
  - intros p Hp.
    assert (Hcases : p ∈ map record_phrase a1 ++ map fst f1
                     \/ p ∈ map record_phrase a2 ++ map fst f2).
    { rewrite !elem_of_app in Hp. rewrite !elem_of_app. tauto. }
    destruct Hcases as [H|H].
    + destruct (P1 p H) as (Hne & Hs & He & Hf & raw & Hraw & Hp').
      split_and!; try assumption.
      exists raw. split; [apply in_or_app; left; exact Hraw | exact Hp'].
    + destruct (P2 p H) as (Hne & Hs & He & Hf & raw & Hraw & Hp').
      split; [exact Hne|]. split; [exact Hs|]. split; [|split].
      * intros Hin. apply He. rewrite E1. apply elem_of_union_r, Hin.
      * intros Hin. apply Hf. rewrite G1. apply elem_of_union_r, Hin.
      * exists raw. split; [apply in_or_app; right; exact Hraw | exact Hp'].
  - apply Forall_app. split; assumption.
Qed.

Section WithPinyin.

Variable lazy_pinyin : pystr -> option (list pystr).

(** What the failure branch of the loop does, whatever the fail file
    answers. *)
Lemma write_fail_effect st w w1 raw line reason :
  line = strip raw ->
  line <> [] -> strip line = line ->
  line ∉ existing_phrases st -> line ∉ existing_fail_phrases st ->
  dict_file w1 = dict_file w -> fail_file w1 = fail_file w ->
  record_files w1 = record_files w ->
  exists st' w' failed,
    write_fail line reason (count_line st) w1 = (st', w')
    /\ batch_effect st w st' w' [raw] [] failed.
Proof.
  intros Hraw Hne Hs He Hf Hd Hfl Hr. unfold write_fail.
  destruct (try_write_files w1) as (Hd2 & Hf2 & Hr2 & _).
  destruct (try_write w1) as [[] w2]; cbn [snd] in Hd2, Hf2, Hr2.
  - eexists _, _, _. split; [reflexivity|].
    apply batch_effect_failed; try assumption; congruence.
  - eexists _, _, _. split; [reflexivity|].
    apply batch_effect_skip; try reflexivity; try congruence.
    cbn [count_line skipped_count]. lia.
Qed.

(** Every line of the input is read, and leaves the state and the files as
    [batch_effect] says. *)
Lemma batch_item_effect rule cc pw raw st w :
  exists st' w' added failed,
    batch_item lazy_pinyin rule cc pw raw st w = (Some st', w')
    /\ batch_effect st w st' w' [raw] added failed.
Proof.
  unfold batch_item.
  change (existing_phrases (count_line st)) with (existing_phrases st).
  change (existing_fail_phrases (count_line st))
    with (existing_fail_phrases st).
  destruct (strip raw) as [|c l] eqn:Hs.
  { eexists _, _, _, _. split; [reflexivity|].
    apply batch_effect_skip; try reflexivity.
    cbn [count_line skipped_count]. lia. }
  pose proof (strip_cons_fixed raw c l Hs) as Hfix.
  assert (Hne : c :: l <> []) by discriminate.
  destruct (decide (_ ∈ existing_phrases st)) as [|He].
  { eexists _, _, _, _. split; [reflexivity|].
    apply batch_effect_skip; try reflexivity.
    cbn [count_skipped count_line skipped_count]. lia. }
  destruct (decide (_ ∈ existing_fail_phrases st)) as [|Hf].
  { eexists _, _, _, _. split; [reflexivity|].
    apply batch_effect_skip; try reflexivity.
    cbn [count_skipped count_line skipped_count]. lia. }
  assert (Hfail : forall reason,
    exists st' w' added failed,
      (let '(st0, w0) := write_fail (c :: l) reason (count_line st) w in
       (Some st0, w0)) = (Some st', w')
      /\ batch_effect st w st' w' [raw] added failed).
  { intros reason.
    destruct (write_fail_effect st w w raw (c :: l) reason)
      as (st' & w' & failed & -> & Heff); try assumption; try reflexivity;
      try (symmetry; assumption).
    exists st', w', [], failed. split; [reflexivity | exact Heff]. }
  assert (Henc : extract_chinese_chars (c :: l) <> [] ->
    exists st' w' added failed,
      match extract_chinese_chars (c :: l) with
      | [] => (Some (count_failed_unwritten (c :: l) FailNoChinese
                       (count_line st)), w)
      | _ :: _ =>
          match generate_wubi_code lazy_pinyin
                  (extract_chinese_chars (c :: l)) cc rule with
          | Some code =>
              match try_write w with
              | (IoOk, w0) =>
                  (Some (count_added (c :: l) code
                           (resolve_weight pw (c :: l)) (count_line st)),
                   set_dict_file
                     (dict_file w0 ++
                      [entry_line (c :: l) code
                         (resolve_weight pw (c :: l))]) w0)
              | (IoError, w0) =>
                  let '(st0, w1) :=
                    write_fail (c :: l) FailWriteError (count_line st) w0 in
                  (Some st0, w1)
              end
          | None => (None, w)
          end
      end = (Some st', w')
      /\ batch_effect st w st' w' [raw] added failed).
  { intros Hch.
    destruct (generate_wubi_code_total lazy_pinyin _ cc rule Hch) as [code ->].
    destruct (extract_chinese_chars (c :: l)); [contradiction|].
    destruct (try_write_files w) as (Hd & Hfl & Hr & _).
    destruct (try_write w) as [[] w0]; cbn [snd] in Hd, Hfl, Hr.
    - eexists _, _, _, _. split; [reflexivity|].
      apply batch_effect_added; try assumption;
        [symmetry; assumption | apply resolve_weight_number].
    - destruct (write_fail_effect st w w0 raw (c :: l) FailWriteError)
        as (st' & w' & failed & -> & Heff); try assumption;
        try (symmetry; assumption).
      exists st', w', [], failed. split; [reflexivity | exact Heff]. }
  destruct (rule =? 6)%Z.
  - destruct (extract_chinese_chars (c :: l)) eqn:Hx; [apply Hfail|].
    apply Henc. discriminate.
  - destruct (check_all_chars_exist (c :: l) cc) eqn:Hc;
      cbn [negb]; [|apply Hfail].
    apply Henc. apply (check_all_chars_exist_chinese _ cc), Hc.
Qed.

Lemma batch_loop_effect rule cc pw lines : forall st w,
  exists st' w' added failed,
    batch_loop lazy_pinyin rule cc pw lines st w = (Some st', w')
    /\ batch_effect st w st' w' lines added failed.
Proof.
  induction lines as [|raw rest IH]; intros st w.
  - exists st, w, [], []. split; [reflexivity | apply batch_effect_refl].
  - cbn [batch_loop length].
    destruct (batch_item_effect rule cc pw raw st w)
      as (st1 & w1 & a1 & f1 & -> & H1).
    destruct (IH st1 w1) as (st2 & w2 & a2 & f2 & -> & H2).
    exists st2, w2, (a1 ++ a2), (f1 ++ f2). split; [reflexivity|].
    exact (batch_effect_trans _ _ _ _ _ _ [raw] _ _ _ _ _ H1 H2).
Qed.

(** [file_batch_mode] under a rule other than 5, on a file it can read. *)
Lemma file_batch_mode_effect rule cc pw lines w :
  rule <> 5%Z ->
  exists st' w1 added failed exit a f w',
    file_batch_mode lazy_pinyin rule cc pw (Some lines) w = (exit, a, f, w')
    /\ batch_effect
         (mkBatch (read_existing_entries (dict_file w))
            (read_fail_phrases (fail_file w)) 0 0 0 0 [] [])
         w st' w1 lines added failed
    /\ dict_file w'
       = (if 0 <? length added then clean_output_file (dict_file w1)
          else dict_file w1)
    /\ fail_file w'
       = (if 0 <? length failed then clean_output_file (fail_file w1)
          else fail_file w1)
    /\ ((exit, a, f) = (ExitProcessed, length added, length failed)
        \/ (exit, a, f) = (ExitException, 0, 0)).
Proof.
  intros Hr. unfold file_batch_mode.
  destruct (Z.eqb_spec rule 5); [contradiction|].
  destruct (batch_loop_effect rule cc pw lines
              (mkBatch (read_existing_entries (dict_file w))
                 (read_fail_phrases (fail_file w)) 0 0 0 0 [] []) w)
    as (st' & w1 & added & failed & -> & Heff).
  pose proof Heff as (_ & _ & _ & _ & _ & Ha & Hf & _).
  cbn [added_count fail_count Nat.add] in Ha, Hf.
  rewrite Ha, Hf.
  set (w2 := if 0 <? length added
             then set_dict_file (clean_output_file (dict_file w1)) w1
             else w1).
  set (w3 := if 0 <? length failed
             then set_fail_file (clean_output_file (fail_file w2)) w2
             else w2).
  assert (Hd3 : dict_file w3
                = if 0 <? length added then clean_output_file (dict_file w1)
                  else dict_file w1).
  { subst w3 w2. destruct (0 <? length added), (0 <? length failed);
      reflexivity. }
  assert (Hf3 : fail_file w3
                = if 0 <? length failed then clean_output_file (fail_file w1)
                  else fail_file w1).
  { subst w3 w2. destruct (0 <? length added), (0 <? length failed);
      reflexivity. }
  destruct (try_write_files w3) as (Hd4 & Hf4 & _).
  destruct (try_write w3) as [[] w4]; cbn [snd] in Hd4, Hf4.
  - eexists st', w1, added, failed, _, _, _, _.
    split; [reflexivity|]. split; [exact Heff|].
    cbn [set_record_files dict_file fail_file].
    rewrite Hd4, Hf4, Hd3, Hf3. auto.
  - eexists st', w1, added, failed, _, _, _, _.
    split; [reflexivity|]. split; [exact Heff|].
    rewrite Hd4, Hf4, Hd3, Hf3. auto.
Qed.

(** With every write accepted, the loop leaves the script of the writes
    empty. *)
Lemma batch_item_writes_nil rule cc pw raw st w :
  writes w = [] ->
  writes (batch_item lazy_pinyin rule cc pw raw st w).2 = [].
Proof.
  intros Hw. unfold batch_item, write_fail, try_write. rewrite Hw.
  repeat case_match; simplify_eq; cbn; try assumption; try reflexivity.
Qed.

Lemma batch_loop_writes_nil rule cc pw lines : forall st w,
  writes w = [] ->
  writes (batch_loop lazy_pinyin rule cc pw lines st w).2 = [].
Proof.
  induction lines as [|raw rest IH]; intros st w Hw; [exact Hw|].
  cbn [batch_loop].
  pose proof (batch_item_writes_nil rule cc pw raw st w Hw) as H1.
  destruct (batch_item lazy_pinyin rule cc pw raw st w) as [[st1|] w1];
    cbn [snd] in H1; [apply IH, H1 | exact H1].
Qed.

Lemma clean_idemp file :
  clean_output_file (clean_output_file file) = clean_output_file file.
Proof.
  unfold clean_output_file. induction file as [|line rest IH]; [reflexivity|].
  cbn [List.filter]. destruct (strip line) eqn:E; [exact IH|].
  cbn [List.filter]. rewrite E, IH. reflexivity.
Qed.

Lemma omap_clean {B} (f : pystr -> option B) file :
  (forall line, strip line = [] -> f line = None) ->
  omap f (clean_output_file file) = omap f file.
Proof.
  intros Hblank. unfold clean_output_file.
  induction file as [|line rest IH]; [reflexivity|].
  cbn [List.filter]. destruct (strip line) eqn:E.
  - simpl. rewrite (Hblank line E). exact IH.
  - simpl. destruct (f line); [f_equal|]; exact IH.
Qed.

Lemma clean_entries file :
  omap entry_phrase (clean_output_file file) = omap entry_phrase file.
Proof.
  apply omap_clean. intros line E. unfold entry_phrase. rewrite E.
  reflexivity.
Qed.

Lemma clean_fail_phrases file :
  omap fail_phrase (clean_output_file file) = omap fail_phrase file.
Proof.
  apply omap_clean. intros line E. unfold fail_phrase. rewrite E.
  reflexivity.
Qed.

End WithPinyin.

End BatchFacts.

Import BatchView BatchFacts.

Module PipelineMore.

Section WithPinyin.

Variable lazy_pinyin : pystr -> option (list pystr).

(** What [interactive_single_input] returns and leaves, case by case. *)
Lemma single_input_cases phrase rule cc pw existing w o1 e1 w1 :
  interactive_single_input lazy_pinyin phrase rule cc pw existing w
  = (o1, e1, w1) ->
  (o1 = Skipped_AlreadyExists /\ phrase ∈ existing
   /\ e1 = existing /\ dict_file w1 = dict_file w)
  \/ (exists r, o1 = Rejected r /\ (phrase ∉ existing)
        /\ e1 = existing /\ dict_file w1 = dict_file w)
  \/ (exists code,
        o1 = Added code /\ (phrase ∉ existing)
        /\ e1 = {[phrase]} ∪ existing
        /\ dict_file w1
           = dict_file w ++ [entry_line phrase code (resolve_weight pw phrase)]).
Proof.
  unfold interactive_single_input.
  destruct (decide (phrase ∈ existing)) as [Hin|Hnew].
  { intros [= <- <- <-]. left. auto. }
  destruct (negb _ && negb _).
  { intros [= <- <- <-]. right. left. eexists. auto. }
  assert (Hcode : forall (r : pystr + outcome) (w0 : World),
    dict_file w0 = dict_file w ->
    (forall o, r = inr o -> exists x, o = Rejected x) ->
    (match r with
     | inr o => (o, existing, w0)
     | inl code =>
         match try_write w0 with
         | (IoOk, w2) =>
             (Added code, {[phrase]} ∪ existing,
              set_dict_file
                (dict_file w2 ++
                 [entry_line phrase code (resolve_weight pw phrase)]) w2)
         | (IoError, w2) => (Rejected WriteError, existing, w2)
         end
     end) = (o1, e1, w1) ->
    (exists r, o1 = Rejected r /\ (phrase ∉ existing)
        /\ e1 = existing /\ dict_file w1 = dict_file w)
    \/ (exists code,
          o1 = Added code /\ (phrase ∉ existing)
          /\ e1 = {[phrase]} ∪ existing
          /\ dict_file w1
             = dict_file w
               ++ [entry_line phrase code (resolve_weight pw phrase)])).
  { intros r w0 Hd Hrej Hr. destruct r as [code|o].
    - destruct (try_write_files w0) as (Hd2 & _).
      destruct (try_write w0) as [[] w2]; cbn [snd] in Hd2;
        injection Hr as <- <- <-.
      + right. exists code. cbn [set_dict_file dict_file].
        rewrite Hd2, Hd. auto.
      + left. eexists. rewrite Hd2, Hd. auto.
    - injection Hr as <- <- <-. left.
      destruct (Hrej o eq_refl) as [x ->]. eexists. auto. }
  intros Hrun. right.
  destruct (rule =? 5)%Z.
  - destruct (prompt_code (stdin w)) as [r rest] eqn:Hp.
    apply (Hcode r (set_stdin rest w)); [reflexivity | | exact Hrun].
    intros o ->. apply (prompt_code_outcome (stdin w)). rewrite Hp.
    reflexivity.
  - assert (Henc : forall o,
      encode_chinese lazy_pinyin phrase rule cc = inr o ->
      exists x, o = Rejected x).
    { intros o Ho. apply encode_chinese_outcome in Ho. subst o.
      eexists. reflexivity. }
    destruct (rule =? 6)%Z;
      apply (Hcode (encode_chinese lazy_pinyin phrase rule cc) w); auto.
Qed.

(** X13: no exception of the generator leaves the ingestion paths: the
    single-item path always returns an outcome, the loop of the batch reads
    all of its lines, and a batch under a rule other than 5, on a file it
    can read and with every write accepted, ends by its normal exit. *)
Theorem pipeline_never_raises (rule : Z) (cc pw : gmap pystr pystr) :
  (forall phrase existing w,
     (interactive_single_input lazy_pinyin phrase rule cc pw existing w).1.1
     <> Raises)
  /\ (forall lines st w,
        exists st' w',
          batch_loop lazy_pinyin rule cc pw lines st w = (Some st', w'))
  /\ (forall lines w,
        rule <> 5%Z -> writes w = [] ->
        (file_batch_mode lazy_pinyin rule cc pw (Some lines) w).1.1.1
        = ExitProcessed).
Proof.
  split; [|split].
  - intros phrase existing w.
    destruct (interactive_single_input lazy_pinyin phrase rule cc pw
                existing w) as [[o1 e1] w1] eqn:E.
    destruct (single_input_cases _ _ _ _ _ _ _ _ _ E)
      as [(-> & _) | [(r & -> & _) | (code & -> & _)]]; discriminate.
  - intros lines st w.
    destruct (batch_loop_effect lazy_pinyin rule cc pw lines st w)
      as (st' & w' & _ & _ & H & _).
    exists st', w'. exact H.
  - intros lines w Hr Hw. unfold file_batch_mode.
    destruct (Z.eqb_spec rule 5); [contradiction|].
    pose proof (batch_loop_writes_nil lazy_pinyin rule cc pw lines
                  (mkBatch (read_existing_entries (dict_file w))
                     (read_fail_phrases (fail_file w)) 0 0 0 0 [] []) w Hw)
      as Hw1.
    destruct (batch_loop_effect lazy_pinyin rule cc pw lines
                (mkBatch (read_existing_entries (dict_file w))
                   (read_fail_phrases (fail_file w)) 0 0 0 0 [] []) w)
      as (st' & w1 & _ & _ & E & _).
    rewrite E in Hw1 |- *. cbn [snd] in Hw1.
    unfold try_write.
    destruct (0 <? added_count st'), (0 <? fail_count st');
      cbn [writes set_dict_file set_fail_file]; rewrite Hw1; reflexivity.
Qed.

(** X14: a batch under a rule other than 5, on a file it can read, appends
    to the dictionary one line per phrase it adds and to the fail file one
    line per phrase it fails, and removes the blank lines of a file it
    appended to; the counts it returns are the numbers of these lines, unless
    the record file cannot be written, in which case it returns zero counts
    although the lines are in the files. *)
Theorem batch_counts_match_files (rule : Z) (cc pw : gmap pystr pystr)
    (lines : list pystr) (w : World) :
  rule <> 5%Z ->
  exists (added : list (pystr * pystr * pystr))
         (failed : list (pystr * fail_reason)),
    dict_file (file_batch_mode lazy_pinyin rule cc pw (Some lines) w).2
    = (if 0 <? length added
       then clean_output_file (dict_file w ++ map record_line added)
       else dict_file w)
    /\ fail_file (file_batch_mode lazy_pinyin rule cc pw (Some lines) w).2
       = (if 0 <? length failed
          then clean_output_file (fail_file w ++ map fst failed)
          else fail_file w)
    /\ ((file_batch_mode lazy_pinyin rule cc pw (Some lines) w).1
        = (ExitProcessed, length added, length failed)
        \/ (file_batch_mode lazy_pinyin rule cc pw (Some lines) w).1
           = (ExitException, 0, 0))
    /\ length added + length failed <= length lines.
Proof.
  intros Hr.
  destruct (file_batch_mode_effect lazy_pinyin rule cc pw lines w Hr)
    as (st' & w1 & added & failed & exit & a & f & w' & -> & Heff & Hd & Hf
        & Hres).
  destruct Heff as (_ & _ & Hd1 & Hf1 & _ & _ & _ & _ & _ & Hn & _).
  exists added, failed. cbn [fst snd]. rewrite Hd, Hf, Hd1, Hf1.
  split.
  { destruct added; [rewrite app_nil_r|]; reflexivity. }
  split.
  { destruct failed; [rewrite app_nil_r|]; reflexivity. }
  split; [|lia].
  destruct Hres as [[= -> -> ->] | [= -> -> ->]]; auto.
Qed.

(** X15: the phrases a batch appends to the dictionary and to the fail file
    are pairwise distinct, stripped and not empty, and none of them was an
    entry of the dictionary or a line of the fail file when the batch
    started: within a run no phrase is written twice. *)
Theorem batch_writes_each_phrase_once (rule : Z) (cc pw : gmap pystr pystr)
    (lines : list pystr) (w : World) :
  rule <> 5%Z ->
  exists (added : list (pystr * pystr * pystr))
         (failed : list (pystr * fail_reason)),
    dict_file (file_batch_mode lazy_pinyin rule cc pw (Some lines) w).2
    = (if 0 <? length added
       then clean_output_file (dict_file w ++ map record_line added)
       else dict_file w)
    /\ fail_file (file_batch_mode lazy_pinyin rule cc pw (Some lines) w).2
       = (if 0 <? length failed
          then clean_output_file (fail_file w ++ map fst failed)
          else fail_file w)
    /\ NoDup (map record_phrase added ++ map fst failed)
    /\ (forall p, p ∈ map record_phrase added ++ map fst failed ->
          p <> [] /\ strip p = p
          /\ (p ∉ read_existing_entries (dict_file w))
          /\ (p ∉ read_fail_phrases (fail_file w))).
Proof.
  intros Hr.
  destruct (file_batch_mode_effect lazy_pinyin rule cc pw lines w Hr)
    as (st' & w1 & added & failed & exit & a & f & w' & -> & Heff & Hd & Hf
        & Hres).
  destruct Heff as (_ & _ & Hd1 & Hf1 & _ & _ & _ & _ & _ & _ & _ & _ & Hnd
                    & Hnew & _).
  exists added, failed. cbn [fst snd]. rewrite Hd, Hf, Hd1, Hf1.
  split.
  { destruct added; [rewrite app_nil_r|]; reflexivity. }
  split.
  { destruct failed; [rewrite app_nil_r|]; reflexivity. }
  split; [exact Hnd|].
  intros p Hp. destruct (Hnew p Hp) as (H1 & H2 & H3 & H4 & _). auto.
Qed.

(** X16: [clean_output_file] keeps exactly the lines that are not blank;
    cleaning twice is cleaning once, and a cleaned file gives the same
    entries to [read_existing_entries] and the same phrases to the loader of
    the fail file as the file before it was cleaned. *)
Theorem clean_keeps_entries (file : list pystr) :
  clean_output_file (clean_output_file file) = clean_output_file file
  /\ read_existing_entries (clean_output_file file)
     = read_existing_entries file
  /\ read_fail_phrases (clean_output_file file) = read_fail_phrases file
  /\ (forall line, In line (clean_output_file file)
                   <-> In line file /\ strip line <> []).
Proof.
  split; [apply clean_idemp|]. split.
  { unfold read_existing_entries. rewrite clean_entries. reflexivity. }
  split.
  { unfold read_fail_phrases. rewrite clean_fail_phrases. reflexivity. }
  intros line. unfold clean_output_file. rewrite filter_In.
  destruct (strip line); split; intros [H1 H2]; split; auto; discriminate.
Qed.

End WithPinyin.

Lemma pipeline_never_raises_witness :
  (1 <> 5)%Z /\ writes Samples.empty_world = []
  /\ (file_batch_mode Samples.no_pinyin 1 Samples.table ∅
        (Some [[Samples.da]; str "abc"]) Samples.empty_world).1.1.1
     = ExitProcessed.
Proof.
  assert (H1 : (1 <> 5)%Z) by discriminate.
  assert (H2 : writes Samples.empty_world = []) by reflexivity.
  split; [exact H1 | split; [exact H2 |]].
  exact (proj2 (proj2 (pipeline_never_raises Samples.no_pinyin 1
                         Samples.table ∅)) _ _ H1 H2).
Defined.

Lemma batch_counts_match_files_witness :
  (1 <> 5)%Z
  /\ exists (added : list (pystr * pystr * pystr))
         (failed : list (pystr * fail_reason)),
       (file_batch_mode Samples.no_pinyin 1 Samples.table ∅
          (Some [[Samples.da]; str "abc"]) Samples.empty_world).1
       = (ExitProcessed, length added, length failed)
       \/ (file_batch_mode Samples.no_pinyin 1 Samples.table ∅
             (Some [[Samples.da]; str "abc"]) Samples.empty_world).1
          = (ExitException, 0, 0).
Proof.
  assert (H1 : (1 <> 5)%Z) by discriminate.
  split; [exact H1|].
  destruct (batch_counts_match_files Samples.no_pinyin 1 Samples.table ∅
              [[Samples.da]; str "abc"] Samples.empty_world H1)
    as (added & failed & _ & _ & H & _).
  exists added, failed. exact H.
Defined.

Lemma batch_writes_each_phrase_once_witness :
  (1 <> 5)%Z
  /\ exists (added : list (pystr * pystr * pystr))
         (failed : list (pystr * fail_reason)),
       NoDup (map record_phrase added ++ map fst failed)
       /\ dict_file
            (file_batch_mode Samples.no_pinyin 1 Samples.table ∅
               (Some [[Samples.da]; [Samples.da]]) Samples.empty_world).2
          = (if 0 <? length added
             then clean_output_file
                    (dict_file Samples.empty_world ++ map record_line added)
             else dict_file Samples.empty_world).
Proof.
  assert (H1 : (1 <> 5)%Z) by discriminate.
  split; [exact H1|].
  destruct (batch_writes_each_phrase_once Samples.no_pinyin 1 Samples.table ∅
              [[Samples.da]; [Samples.da]] Samples.empty_world H1)
    as (added & failed & Hd & _ & Hnd & _).
  exists added, failed. split; [exact Hnd | exact Hd].
Defined.

End PipelineMore.

Import PipelineMore.

(** ** The dictionary read back, the prompt, and a second batch run *)

Module IngestMore.



(** Words of [split_ws]: not empty, without white space, made of characters
    of the text. *)
Lemma split_ws_aux_words (P : N -> Prop) s : forall cur,
  Forall P cur -> Forall (fun c => is_space c = false -> P c) s ->
  Forall (fun word => word <> [] /\ Forall P word) (split_ws_aux cur s).
Proof.
  induction s as [|c s IH]; intros cur Hcur Hs.
  - cbn [split_ws_aux]. destruct cur as [|d cur']; [constructor|].
    constructor; [|constructor]. split.
    + intros E. apply (f_equal (@length N)) in E.
      rewrite length_rev in E. discriminate.
    + apply Forall_rev. exact Hcur.
  - inversion Hs as [|? ? Hc Hs']; subst. cbn [split_ws_aux].
    destruct (is_space c) eqn:Esp.
    + destruct cur as [|d cur']; [apply IH; [constructor | exact Hs']|].
      constructor; [|apply IH; [constructor | exact Hs']]. split.
      * intros E. apply (f_equal (@length N)) in E.
        rewrite length_rev in E. discriminate.
      * apply Forall_rev. exact Hcur.
    + apply IH; [constructor; [apply Hc; reflexivity | exact Hcur] | exact Hs'].
Qed.

Lemma split_ws_aux_nonempty s : forall cur,
  (cur <> [] \/ exists c, In c s /\ is_space c = false) ->
  split_ws_aux cur s <> [].
Proof.
  induction s as [|c s IH]; intros cur H.
  - cbn [split_ws_aux]. destruct cur; [|discriminate].
    destruct H as [H | (c & [] & _)]. contradiction.
  - cbn [split_ws_aux]. destruct (is_space c) eqn:Esp.
    + destruct cur; [|discriminate].
      apply IH. right. destruct H as [H | (d & [<- | Hd] & Hsp)];
        [contradiction | congruence | exists d; auto].
    + apply IH. left. discriminate.
Qed.

Lemma join_space_chars (P : N -> Prop) words :
  P SPACE -> Forall (fun word => word <> [] /\ Forall P word) words ->
  Forall P (join [SPACE] words) /\ (words <> [] -> join [SPACE] words <> []).
Proof.
  intros HP. induction words as [|word rest IH]; intros H.
  - split; [constructor | contradiction].
  - inversion H as [|? ? [Hne Hw] Hrest]; subst.
    destruct (IH Hrest) as [IH1 _]. split.
    + cbn [join]. destruct rest; [exact Hw|].
      apply Forall_app. split; [exact Hw|].
      cbn [app]. constructor; [exact HP | exact IH1].
    + intros _. cbn [join]. destruct rest; [exact Hne|].
      destruct word; [contradiction | discriminate].
Qed.

Lemma re_match_plus_chars cls s :
  re_match_plus cls s = true ->
  forall c, In c s -> cls c = true \/ c = NEWLINE.
Proof.
  unfold re_match_plus. intros H c Hc.
  destruct (last s) as [d|] eqn:El.
  - destruct (N.eqb_spec d NEWLINE) as [->|Hd].
    + apply last_Some in El as [l' ->].
      rewrite removelast_last in H.
      apply in_app_or in Hc as [Hc | [<- | []]]; [|right; reflexivity].
      left. destruct l'; [contradiction|].
      rewrite forallb_forall in H. apply H, Hc.
    + left. destruct s; [contradiction|].
      rewrite forallb_forall in H. apply H, Hc.
  - apply last_None in El. subst s. contradiction.
Qed.

Lemma lower_char_space c : is_space (lower_char c) = is_space c.
Proof.
  unfold lower_char.
  destruct ((65 <=? c)%N && (c <=? 90)%N) eqn:E; [|reflexivity].
  apply andb_true_iff in E as [E1 E2]. apply N.leb_le in E1, E2.
  assert (H : forall d, (65 <= d <= 122)%N -> is_space d = false).
  { intros d Hd. unfold is_space.
    repeat (apply orb_false_iff; split);
      try (apply andb_false_iff; rewrite !N.leb_gt; lia);
      apply N.eqb_neq; lia. }
  rewrite !H by lia. reflexivity.
Qed.

Lemma code_chars_lower code :
  Forall (fun c => is_lower_or_space c = true) code ->
  is_code_text code = true \/ code = [].
Proof.
  intros H. destruct code as [|c l]; [right; reflexivity|]. left.
  unfold is_code_text, re_match_plus.
  assert (Hbody : match last (c :: l) with
                  | Some d => if (d =? NEWLINE)%N then removelast (c :: l)
                              else c :: l
                  | None => c :: l
                  end = c :: l).
  { destruct (last (c :: l)) as [d|] eqn:El; [|reflexivity].
    destruct (N.eqb_spec d NEWLINE) as [->|]; [|reflexivity].
    exfalso. apply last_Some in El as [l' El]. rewrite El in H.
    apply Forall_app in H as [_ H]. inversion H; subst. discriminate. }
  rewrite Hbody. apply forallb_forall. intros d Hd.
  rewrite Forall_forall in H. apply H, list_elem_of_In, Hd.
Qed.

(** X17: a code the prompt of rule 5 accepts is one [validate_wubi_code]
    accepts: it is not empty and made of the letters a to z and of spaces;
    it holds no upper-case letter. *)
Theorem prompt_accepts_valid_codes (events : list input_event) (code : pystr) :
  (prompt_code events).1 = inl code ->
  CodeTable.validate_wubi_code code = true /\ lower code = code.
Proof.
  induction events as [|ev rest IH]; [discriminate|].
  destruct ev as [text| |]; [|discriminate..].
  cbn [prompt_code].
  destruct (strip text) as [|c l] eqn:Es; [exact IH|].
  destruct (is_code_text (lower (c :: l))) eqn:Ec; cbn [negb]; [|exact IH].
  cbn [fst]. intros [= <-]. clear IH.
  change (lower_char c :: lower l) with (lower (c :: l)).
  set (u := lower (c :: l)) in *.
  assert (Hwords : Forall (fun word => word <> []
                     /\ Forall (fun d => is_lower_or_space d = true) word)
                     (split_ws u)).
  { apply split_ws_aux_words; [constructor|].
    apply Forall_forall. intros d Hd Hsp. apply list_elem_of_In in Hd.
    destruct (re_match_plus_chars _ _ Ec d Hd) as [H | ->];
      [exact H | discriminate Hsp]. }
  assert (Hne : split_ws u <> []).
  { apply split_ws_aux_nonempty. right. exists (lower_char c).
    split; [left; reflexivity|].
    rewrite lower_char_space. exact (strip_head text c l Es). }
  destruct (join_space_chars (fun d => is_lower_or_space d = true)
              (split_ws u) eq_refl Hwords) as [Hall Hjoin].
  specialize (Hjoin Hne).
  split.
  - destruct (code_chars_lower _ Hall) as [Hc | E]; [|contradiction].
    unfold CodeTable.validate_wubi_code.
    destruct (join [SPACE] (split_ws u)); [contradiction|].
    rewrite Hc. reflexivity.
  - unfold lower. rewrite <- (map_id (join [SPACE] (split_ws u))) at 2.
    apply map_ext_in. intros d Hd.
    rewrite Forall_forall in Hall.
    specialize (Hall d (proj2 (list_elem_of_In _ _) Hd)).
    unfold lower_char, is_lower_or_space in *.
    destruct ((65 <=? d)%N && (d <=? 90)%N) eqn:E; [|reflexivity].
    apply andb_true_iff in E as [E1 E2]. apply N.leb_le in E1, E2.
    apply orb_true_iff in Hall as [Hall | Hall].
    + apply andb_true_iff in Hall as [H1 H2]. apply N.leb_le in H1. lia.
    + apply N.eqb_eq in Hall. unfold SPACE in Hall. lia.
Qed.

Lemma prompt_accepts_valid_codes_witness :
  (prompt_code [Typed (str "12"); Typed (str " AB   cd ")]).1
  = inl (str "ab cd")
  /\ CodeTable.validate_wubi_code (str "ab cd") = true.
Proof.
  assert (H : (prompt_code [Typed (str "12"); Typed (str " AB   cd ")]).1
              = inl (str "ab cd")) by reflexivity.
  split; [exact H|].
  exact (proj1 (prompt_accepts_valid_codes _ _ H)).
Defined.

Section WithPinyin.

Variable lazy_pinyin : pystr -> option (list pystr).










End WithPinyin.




End IngestMore.

(** ** Instances of the equivalences above *)

Module MoreWitnesses.

Lemma rule1_raises_iff_empty_witness :
  rule_standard_wubi [] Samples.table = None.
Proof.
  exact (proj2 (RulesMore.rule1_raises_iff_empty [] Samples.table) eq_refl).
Defined.

Lemma generate_raises_iff_witness :
  ([] : pystr) = [] /\ (6 < 2 \/ 5 < 6)%Z
  /\ generate_wubi_code Samples.no_pinyin [] Samples.table 6 = None.
Proof.
  assert (H : ([] : pystr) = [] /\ (6 < 2 \/ 5 < 6)%Z)
    by (split; [reflexivity | right; lia]).
  split; [exact (proj1 H) | split; [exact (proj2 H) |]].
  exact (proj2 (proj1 (RulesMore.generate_raises_iff Samples.no_pinyin []
                         Samples.table 6)) H).
Defined.

Lemma check_all_chars_exist_iff_witness :
  check_all_chars_exist [Samples.da; 97%N; Samples.zi] Samples.table = true
  /\ extract_chinese_chars [Samples.da; 97%N; Samples.zi] <> [].
Proof.
  assert (H : check_all_chars_exist [Samples.da; 97%N; Samples.zi]
                Samples.table = true) by reflexivity.
  split; [exact H|].
  exact (proj1 (proj1 (proj1 (CodeTableSpec.check_all_chars_exist_iff
                                [Samples.da; 97%N; Samples.zi] Samples.table))
                  H)).
Defined.

Lemma weight_stored_iff_named_witness :
  Forall (fun line => Reference.within_int_limit line = true)
    [Samples.weight_line [Samples.da] (str "5")]
  /\ observed [Samples.zi] [Samples.weight_line [Samples.da] (str "5")] = []
  /\ read_phrase_weights
       (Some [Samples.weight_line [Samples.da] (str "5")]) !! [Samples.zi]
     = None.
Proof.
  assert (H0 : Forall (fun line => Reference.within_int_limit line = true)
                 [Samples.weight_line [Samples.da] (str "5")])
    by (repeat constructor).
  assert (H : observed [Samples.zi]
                [Samples.weight_line [Samples.da] (str "5")] = [])
    by reflexivity.
  split; [exact H0|]. split; [exact H|].
  exact (proj2 (WeightsMore.weight_stored_iff_named _ _ H0) H).
Defined.

Lemma clean_keeps_entries_witness :
  In (str "abc") [[]; str "abc"] /\ strip (str "abc") <> []
  /\ In (str "abc") (clean_output_file [[]; str "abc"]).
Proof.
  assert (H : In (str "abc") [[]; str "abc"] /\ strip (str "abc") <> []).
  { split; [right; left; reflexivity | vm_compute; discriminate]. }
  split; [exact (proj1 H) | split; [exact (proj2 H) |]].
  exact (proj2 (proj2 (proj2 (proj2 (PipelineMore.clean_keeps_entries
                                       [[]; str "abc"]))) (str "abc")) H).
Defined.

End MoreWitnesses.
